(** * Hamming(7,4) code and the retrocausal fixed-point solver

    Shallow embedding of [src/js/hamming.js] (class [HammingCode]) and of the
    class [RetrocausalFixedPointSolver] listed in [src/theory_guide.md].

    - JavaScript bits are numbers; they are modelled as [Z] and the source's
      [^] as [Z.lxor].
    - [Math.random()] is a stream of draws [random : nat -> Q]; the draw
      counter is threaded through the state.  The fractions the code compares
      (rates, tolerances, fractional distances) are rationals [Q].
    - A thrown [Error] is [Throw msg]; the solver's [this] is threaded as
      explicit state, and a throw keeps the state reached so far. *)

From Stdlib Require Import String ZArith QArith List Bool Lia.
From Stdlib Require Import Reals Qreals Lra.
Import ListNotations.

Open Scope Z_scope.

(** The outcome of a call that may throw [new Error(msg)]. *)
Inductive outcome (A : Type) : Type :=
| Ok (a : A)
| Throw (msg : string).
Arguments Ok {A} a.
Arguments Throw {A} msg.

(** A JavaScript number that may also be [Infinity]. *)
Inductive extnum (A : Type) : Type :=
| Finite (a : A)
| Infinity.
Arguments Finite {A} a.
Arguments Infinity {A}.

(** [x < y] on rationals, as a boolean. *)
Definition Qltb (x y : Q) : bool := negb (Qle_bool y x).

(** [arr[i]] for an index the code keeps in range. *)
Definition at_ (l : list Z) (i : nat) : Z := nth i l 0.

(** [a !== b] on array cells ([undefined] is [None]). *)
Definition cell_neq (a b : option Z) : bool :=
  match a, b with
  | Some x, Some y => negb (x =? y)
  | None, None => false
  | _, _ => true
  end.

(** [arr[p] ^= 1]; the code only uses it with [p] inside the array. *)
Fixpoint xor_at (p : nat) (l : list Z) : list Z :=
  match p, l with
  | O, b :: t => Z.lxor b 1 :: t
  | S p', b :: t => b :: xor_at p' t
  | _, [] => []
  end.

Module HammingCode.

Definition generatorMatrix : list (list Z) :=
  [ [1; 1; 0; 1];
    [1; 0; 1; 1];
    [1; 0; 0; 0];
    [0; 1; 1; 1];
    [0; 1; 0; 0];
    [0; 0; 1; 0];
    [0; 0; 0; 1] ].

Definition parityCheckMatrix : list (list Z) :=
  [ [1; 0; 1; 0; 1; 0; 1];
    [0; 1; 1; 0; 0; 1; 1];
    [0; 0; 0; 1; 1; 1; 1] ].

(** The object literal [syndromeToErrorPosition]. *)
Definition syndromeToErrorPosition : list (Z * Z) :=
  [(0, -1); (1, 0); (2, 1); (3, 2); (4, 3); (5, 4); (6, 5); (7, 6)].

(** Property lookup [obj[k]]; a missing key is [undefined] ([None]). *)
Definition lookup_position (k : Z) : option Z :=
  match find (fun kv => fst kv =? k) syndromeToErrorPosition with
  | Some kv => Some (snd kv)
  | None => None
  end.

Definition is_bit (b : Z) : bool := (b =? 0) || (b =? 1).

Definition validateDataBits (dataBits : list Z) : bool :=
  Nat.eqb (length dataBits) 4 && forallb is_bit dataBits.

Definition validateCodeword (codeword : list Z) : bool :=
  Nat.eqb (length codeword) 7 && forallb is_bit codeword.

(** The inner loop [for j: bit ^= M[i][j] * v[j]] of a matrix-vector product. *)
Definition row_times (row v : list Z) (n : nat) : Z :=
  fold_left (fun bit j => Z.lxor bit (at_ row j * at_ v j)) (seq 0 n) 0.

Definition encode (dataBits : list Z) : outcome (list Z) :=
  if validateDataBits dataBits then
    Ok (map (fun i => row_times (nth i generatorMatrix []) dataBits 4) (seq 0 7))
  else Throw "Input must be array of exactly 4 bits (0 or 1)"%string.

Definition calculateSyndrome (codeword : list Z) : list Z :=
  map (fun i => row_times (nth i parityCheckMatrix []) codeword 7) (seq 0 3).

Definition syndromeToInteger (syndrome : list Z) : Z :=
  at_ syndrome 0 * 1 + at_ syndrome 1 * 2 + at_ syndrome 2 * 4.

Record DecodeResult := mkDecodeResult {
  dataBits : list Z;
  correctedCodeword : list Z;
  errorDetected : bool;
  errorPosition : option Z;
  syndrome : list Z;
  syndromeValue : Z
}.

Definition decode (codeword : list Z) : outcome DecodeResult :=
  if validateCodeword codeword then
    let syn := calculateSyndrome codeword in
    let sv := syndromeToInteger syn in
    let ep := lookup_position sv in
    (* errorPosition !== -1 *)
    let detected := match ep with Some p => negb (p =? -1) | None => true end in
    let corrected :=
      if detected then
        match ep with
        | Some p => xor_at (Z.to_nat p) codeword
        | None => codeword   (* a property named "undefined", not a cell *)
        end
      else codeword in
    Ok {| dataBits := [at_ corrected 2; at_ corrected 4;
                       at_ corrected 5; at_ corrected 6];
          correctedCodeword := corrected;
          errorDetected := detected;
          errorPosition := ep;
          syndrome := syn;
          syndromeValue := sv |}
  else Throw "Input must be array of exactly 7 bits (0 or 1)"%string.

(** [injectErrors]: one draw of [Math.random()] per position, in index
    order, starting at draw number [seed]; returns the next draw number. *)
Fixpoint injectErrors (random : nat -> Q) (codeword : list Z) (errorRate : Q)
    (seed : nat) : list Z * nat :=
  match codeword with
  | [] => ([], seed)
  | b :: rest =>
      let b' := if Qltb (random seed) errorRate then Z.lxor b 1 else b in
      let (rest', seed') := injectErrors random rest errorRate (S seed) in
      (b' :: rest', seed')
  end.

Record CodebookEntry := mkEntry {
  input : list Z;
  codeword : list Z
  (* the display string [binary] is not modelled *)
}.

Fixpoint collect {A} (l : list (outcome A)) : outcome (list A) :=
  match l with
  | [] => Ok []
  | Ok a :: t => match collect t with Ok r => Ok (a :: r) | Throw m => Throw m end
  | Throw m :: _ => Throw m
  end.

Definition codebook_input (i : Z) : list Z :=
  [Z.land (Z.shiftr i 3) 1; Z.land (Z.shiftr i 2) 1;
   Z.land (Z.shiftr i 1) 1; Z.land i 1].

Definition generateCodebook : outcome (list CodebookEntry) :=
  collect (map (fun i =>
             let d := codebook_input (Z.of_nat i) in
             match encode d with
             | Ok c => Ok {| input := d; codeword := c |}
             | Throw m => Throw m
             end) (seq 0 16)).

Definition hammingDistance (word1 word2 : list Z) : Z :=
  fold_left (fun distance i =>
               if cell_neq (nth_error word1 i) (nth_error word2 i)
               then distance + 1 else distance)
            (seq 0 (length word1)) 0.

(** [Math.min(minDistance, distance)] with [minDistance] possibly [Infinity]. *)
Definition js_min (m : extnum Z) (d : Z) : extnum Z :=
  match m with
  | Infinity => Finite d
  | Finite x => Finite (Z.min x d)
  end.

Definition calculateMinimumDistance : outcome (extnum Z) :=
  match generateCodebook with
  | Throw m => Throw m
  | Ok codebook =>
      let n := length codebook in
      Ok (fold_left (fun minD i =>
            fold_left (fun minD' j =>
                js_min minD' (hammingDistance (codeword (nth i codebook (mkEntry [] [])))
                                              (codeword (nth j codebook (mkEntry [] [])))))
              (seq (S i) (n - S i)) minD)
          (seq 0 n) Infinity)
  end.

End HammingCode.

Module RetrocausalFixedPointSolver.

Record Config := mkConfig {
  maxIterations : Z;
  convergenceTolerance : Q;
  errorRate : Q;
  dampingFactor : Q;
  enableAdaptiveStep : bool
}.

(** The caller's [params] object: a field is [None] when it is not given. *)
Record Params := mkParams {
  p_maxIterations : option Z;
  p_convergenceTolerance : option Q;
  p_errorRate : option Q;
  p_dampingFactor : option Q;
  p_enableAdaptiveStep : option bool
}.

Definition noParams : Params := mkParams None None None None None.

Definition override {A} (d : A) (o : option A) : A :=
  match o with Some v => v | None => d end.

(** [{ ...this.defaultParams, ...params }] *)
Definition mergeConfig (d : Config) (p : Params) : Config :=
  {| maxIterations := override (maxIterations d) (p_maxIterations p);
     convergenceTolerance := override (convergenceTolerance d) (p_convergenceTolerance p);
     errorRate := override (errorRate d) (p_errorRate p);
     dampingFactor := override (dampingFactor d) (p_dampingFactor p);
     enableAdaptiveStep := override (enableAdaptiveStep d) (p_enableAdaptiveStep p) |}.

Record IterationRecord := mkRecord {
  iteration : Z;
  state : list Z;
  convergenceError_r : Q;
  errorsCorrected : bool;
  errorPosition_r : option Z;
  encodedState : list Z;
  transmittedState : list Z
}.

Record Statistics := mkStatistics {
  totalRuns : Z;
  successfulConvergences : Z;
  averageIterations : Q;
  convergenceRates : list Q;
  errorCorrectionEffectiveness : list Q
}.

(** The fields of [this]; [startTime] (wall-clock time) is not modelled. *)
Record Solver := mkSolver {
  defaultParams : Config;
  convergenceHistory : list IterationRecord;
  currentIteration : Z;
  isConverged : bool;
  convergenceError : extnum Q;
  statistics : Statistics
}.

(** The solver object together with the position in the stream of
    [Math.random()] draws. *)
Record World := mkWorld {
  self : Solver;
  seed : nat
}.

(** [constructor(hammingCode)] *)
Definition create : Solver :=
  {| defaultParams := {| maxIterations := 100;
                         convergenceTolerance := 1 # 1000000;
                         errorRate := 5 # 100;
                         dampingFactor := 1 # 2;
                         enableAdaptiveStep := true |};
     convergenceHistory := [];
     currentIteration := 0;
     isConverged := false;
     convergenceError := Infinity;
     statistics := {| totalRuns := 0; successfulConvergences := 0;
                      averageIterations := 0; convergenceRates := [];
                      errorCorrectionEffectiveness := [] |} |}.

(** State and exception monad over [World]: a throw keeps the state. *)
Definition M (A : Type) : Type := World -> outcome A * World.

Definition ret {A} (a : A) : M A := fun w => (Ok a, w).

Definition bind {A B} (m : M A) (k : A -> M B) : M B :=
  fun w => match m w with
           | (Ok a, w') => k a w'
           | (Throw e, w') => (Throw e, w')
           end.

Notation "x <- m ;; k" := (bind m (fun x => k))
  (at level 61, m at next level, right associativity).
Notation "m ;;; k" := (bind m (fun _ => k))
  (at level 61, right associativity).

Definition liftOutcome {A} (o : outcome A) : M A := fun w => (o, w).

(** Reading [this.field] (or a function of the fields). *)
Definition getsSelf {A} (f : Solver -> A) : M A := fun w => (Ok (f (self w)), w).

Definition modifySelf (f : Solver -> Solver) : M unit :=
  fun w => (Ok tt, {| self := f (self w); seed := seed w |}).

(** One call of [Math.random()]. *)
Definition mathRandom (random : nat -> Q) : M Q :=
  fun w => (Ok (random (seed w)), {| self := self w; seed := S (seed w) |}).

(** Setters for the fields of [this]. *)
Definition set_history (h : list IterationRecord) (s : Solver) : Solver :=
  {| defaultParams := defaultParams s; convergenceHistory := h;
     currentIteration := currentIteration s; isConverged := isConverged s;
     convergenceError := convergenceError s; statistics := statistics s |}.

Definition set_currentIteration (i : Z) (s : Solver) : Solver :=
  {| defaultParams := defaultParams s; convergenceHistory := convergenceHistory s;
     currentIteration := i; isConverged := isConverged s;
     convergenceError := convergenceError s; statistics := statistics s |}.

Definition set_isConverged (b : bool) (s : Solver) : Solver :=
  {| defaultParams := defaultParams s; convergenceHistory := convergenceHistory s;
     currentIteration := currentIteration s; isConverged := b;
     convergenceError := convergenceError s; statistics := statistics s |}.

Definition set_convergenceError (e : extnum Q) (s : Solver) : Solver :=
  {| defaultParams := defaultParams s; convergenceHistory := convergenceHistory s;
     currentIteration := currentIteration s; isConverged := isConverged s;
     convergenceError := e; statistics := statistics s |}.

Definition set_statistics (st : Statistics) (s : Solver) : Solver :=
  {| defaultParams := defaultParams s; convergenceHistory := convergenceHistory s;
     currentIteration := currentIteration s; isConverged := isConverged s;
     convergenceError := convergenceError s; statistics := st |}.

Record EvolutionResult := mkEvolution {
  inputData : list Z;
  encodedState_e : list Z;
  transmittedState_e : list Z;
  decodingResult : HammingCode.DecodeResult;
  finalData : list Z;
  errorsCorrected_e : bool;
  errorPosition_e : option Z
}.

Record ErrorCorrectionStats := mkErrorCorrectionStats {
  totalErrorsDetected : Z;
  errorsCorrected_s : Z;
  correctionEfficiency : Q;
  (** [None] is [NaN] ([0 / 0] on an empty history). *)
  averageErrorsPerIteration : option Q
}.

Record SolutionReport := mkReport {
  finalState : list Z;
  converged : bool;
  iterations : Z;
  finalError : extnum Q;
  parameters : Config;
  convergenceHistory_r : list IterationRecord;
  convergenceRate : R;
  errorCorrectionStats : ErrorCorrectionStats;
  (* computationTime (wall-clock) is not modelled *)
  memoryUsage : Z
}.

Record Status := mkStatus {
  st_currentIteration : Z;
  st_isConverged : bool;
  st_convergenceError : extnum Q;
  historyLength : Z;
  st_totalRuns : Z;
  successRate : Q
}.

(** [calculateConvergenceError(currentState, previousState)].  The
    [!previousState] branch (returning [Infinity]) is not reachable from
    [solveFixedPoint], which always passes the previous state. *)
Definition calculateConvergenceError (currentState previousState : list Z) : Q :=
  let differences :=
    fold_left (fun d i =>
                 if cell_neq (nth_error currentState i) (nth_error previousState i)
                 then d + 1 else d)
              (seq 0 (length currentState)) 0 in
  (inject_Z differences / inject_Z (Z.of_nat (length currentState)))%Q.

(** The loop of [calculateConvergenceRate] over the pairs
    [(history[i-1], history[i])]: [prev] is the error of [history[i-1]].
    [isFinite(rate)] holds for every real [rate]. *)
Fixpoint rate_loop (prev : Q) (rest : list Q) (totalRateSum : R) (validRates : nat)
    : R * nat :=
  match rest with
  | [] => (totalRateSum, validRates)
  | e_curr :: rest' =>
      if Qltb 0 prev && Qltb 0 e_curr then
        let rate := ln (Q2R e_curr / Q2R prev) in
        if Rlt_dec rate 0
        then rate_loop e_curr rest' (totalRateSum + Rabs rate)%R (S validRates)
        else rate_loop e_curr rest' totalRateSum validRates
      else rate_loop e_curr rest' totalRateSum validRates
  end.

Definition calculateConvergenceRate (history : list IterationRecord) : R :=
  if Nat.ltb (length history) 3 then 0%R
  else
    match map convergenceError_r history with
    | _ :: e1 :: rest =>
        let (sum, valid) := rate_loop e1 rest 0%R O in
        if Nat.ltb 0 valid then (sum / INR valid)%R else 0%R
    | _ => 0%R
    end.

Definition analyzeErrorCorrection (history : list IterationRecord) : ErrorCorrectionStats :=
  let '(totalErrors, correctedErrors) :=
    fold_left (fun acc step =>
                 if errorsCorrected step then (fst acc + 1, snd acc + 1) else acc)
              history (0, 0) in
  {| totalErrorsDetected := totalErrors;
     errorsCorrected_s := correctedErrors;
     correctionEfficiency :=
       if 0 <? totalErrors then (inject_Z correctedErrors / inject_Z totalErrors)%Q
       else 1%Q;
     averageErrorsPerIteration :=
       if Nat.eqb (length history) 0 then None
       else Some (inject_Z totalErrors / inject_Z (Z.of_nat (length history)))%Q |}.

Definition estimateMemoryUsage (s : Solver) : Z :=
  Z.of_nat (length (convergenceHistory s)) * 100.

Definition getStatus : M Status :=
  getsSelf (fun s =>
  let st := statistics s in
  {| st_currentIteration := currentIteration s;
         st_isConverged := isConverged s;
         st_convergenceError := convergenceError s;
         historyLength := Z.of_nat (length (convergenceHistory s));
         st_totalRuns := totalRuns st;
         successRate :=
           if 0 <? totalRuns st
           then (inject_Z (successfulConvergences st) / inject_Z (totalRuns st))%Q
           else 0%Q |}).

Definition resetIterationState : M unit :=
  modifySelf (fun s => set_convergenceError Infinity
                         (set_isConverged false
                            (set_currentIteration 0 (set_history [] s)))).

Definition updateStatistics : M unit :=
  modifySelf (fun s =>
    let st := statistics s in
    let alpha := 1 # 10 in
    set_statistics
      {| totalRuns := totalRuns st + 1;
         successfulConvergences :=
           if isConverged s then successfulConvergences st + 1
           else successfulConvergences st;
         averageIterations :=
           (alpha * inject_Z (currentIteration s + 1)
            + (1 - alpha) * averageIterations st)%Q;
         convergenceRates := convergenceRates st;
         errorCorrectionEffectiveness := errorCorrectionEffectiveness st |} s).

Definition recordIterationStep (currentData : list Z) (err : Q) (ev : EvolutionResult)
    : M unit :=
  modifySelf (fun s =>
    set_history (convergenceHistory s ++
                 [{| iteration := currentIteration s;
                     state := currentData;
                     convergenceError_r := err;
                     errorsCorrected := errorsCorrected_e ev;
                     errorPosition_r := errorPosition_e ev;
                     encodedState := encodedState_e ev;
                     transmittedState := transmittedState_e ev |}]) s).

(** [createSolutionReport(finalData, config)], reading the fields of [this]. *)
Definition solutionReport (finalData : list Z) (config : Config) (s : Solver)
    : SolutionReport :=
  {| finalState := finalData;
     converged := isConverged s;
     iterations := currentIteration s + 1;
     finalError := convergenceError s;
     parameters := config;
     convergenceHistory_r := convergenceHistory s;
     convergenceRate := calculateConvergenceRate (convergenceHistory s);
     errorCorrectionStats := analyzeErrorCorrection (convergenceHistory s);
     memoryUsage := estimateMemoryUsage s |}.

Definition createSolutionReport (finalData : list Z) (config : Config) : M SolutionReport :=
  getsSelf (solutionReport finalData config).

Section WithRandom.

(** The successive values returned by [Math.random()]. *)
Variable random : nat -> Q.

Definition simulateTemporalTransmission (st : list Z) (rate : Q) : M (list Z) :=
  fun w => let (out, seed') := HammingCode.injectErrors random st rate (seed w) in
           (Ok out, {| self := self w; seed := seed' |}).

Definition applySingleEvolutionCycle (input : list Z) (config : Config)
    : M EvolutionResult :=
  encoded <- liftOutcome (HammingCode.encode input) ;;
  transmitted <- simulateTemporalTransmission encoded (errorRate config) ;;
  dec <- liftOutcome (HammingCode.decode transmitted) ;;
  ret {| inputData := input;
         encodedState_e := encoded;
         transmittedState_e := transmitted;
         decodingResult := dec;
         finalData := HammingCode.dataBits dec;
         errorsCorrected_e := HammingCode.errorDetected dec;
         errorPosition_e := HammingCode.errorPosition dec |}.

(** The loop of [applyAdaptiveStep], position by position; a draw is taken
    only where the two states differ.  Both states are 4-bit words in
    [solveFixedPoint], so [previousState] is never shorter. *)
Fixpoint adaptive_loop (dampingFactor : Q) (cur prev : list Z) : M (list Z) :=
  match cur with
  | [] => ret []
  | c :: cur' =>
      match prev with
      | p :: prev' =>
          if c =? p then
            rest <- adaptive_loop dampingFactor cur' prev' ;; ret (c :: rest)
          else
            r <- mathRandom random ;;
            let v := if Qltb r (1 - dampingFactor)%Q then c else p in
            rest <- adaptive_loop dampingFactor cur' prev' ;; ret (v :: rest)
      | [] =>
          _ <- mathRandom random ;;
          rest <- adaptive_loop dampingFactor cur' [] ;; ret (c :: rest)
      end
  end.

Definition applyAdaptiveStep (currentState previousState : list Z) (config : Config)
    : M (list Z) :=
  adaptive_loop (dampingFactor config) currentState previousState.

(** The [for] loop of [solveFixedPoint]: [fuel] bounds the number of
    passes; started with [Z.to_nat maxIterations] it never runs out before
    the test [currentIteration < maxIterations] fails.  A [break] leaves
    [currentIteration] as it is. *)
Fixpoint fixedPointLoop (fuel : nat) (config : Config) (currentData : list Z)
    : M (list Z) :=
  match fuel with
  | O => ret currentData
  | S fuel' =>
      ci <- getsSelf currentIteration ;;
      if ci <? maxIterations config then
        let previousData := currentData in
        ev <- applySingleEvolutionCycle currentData config ;;
        let cur := finalData ev in
        let err := calculateConvergenceError cur previousData in
        modifySelf (set_convergenceError (Finite err)) ;;;
        recordIterationStep cur err ev ;;;
        if Qle_bool err (convergenceTolerance config) then
          modifySelf (set_isConverged true) ;;; ret cur
        else
          next <- (if enableAdaptiveStep config
                   then applyAdaptiveStep cur previousData config
                   else ret cur) ;;
          modifySelf (fun s => set_currentIteration (currentIteration s + 1) s) ;;;
          fixedPointLoop fuel' config next
      else ret currentData
  end.

Definition solveFixedPoint (initialData : list Z) (params : Params) : M SolutionReport :=
  dp <- getsSelf defaultParams ;;
  let config := mergeConfig dp params in
  resetIterationState ;;;
  final <- fixedPointLoop (Z.to_nat (maxIterations config)) config initialData ;;
  updateStatistics ;;;
  createSolutionReport final config.

End WithRandom.

End RetrocausalFixedPointSolver.

(** * Concrete inputs used by the examples *)

Module Samples.

(** A stream of draws in [[0, 1)]: 0, 1/3, 2/3, 0, ... *)
Definition thirds (k : nat) : Q := (inject_Z (Z.of_nat (k mod 3)) / 3)%Q.

Lemma thirds_range (n : nat) : (0 <= thirds n)%Q.
Proof.
  unfold thirds, Qle; simpl; lia.
Qed.

(** [{maxIterations: 10, convergenceTolerance: 1e-6, errorRate: 0.0}] *)
Definition zero_rate_params : RetrocausalFixedPointSolver.Params :=
  RetrocausalFixedPointSolver.mkParams (Some 10) (Some (1 # 1000000)%Q) (Some 0%Q)
    None None.

(** Draws for a three-pass run at rate 1/2: a draw of 0 flips its bit, a
    draw of 3/4 does not.  Pass 1 and pass 2 flip the weight-3 codeword
    positions 0, 1, 2 (one data bit changes); pass 3 flips positions 0, 1,
    4, 5 (two data bits change). *)
Definition rising_flips : list nat := [0; 1; 2; 7; 8; 9; 14; 15; 18; 19]%nat.

Definition rising_draws (k : nat) : Q :=
  if existsb (Nat.eqb k) rising_flips then 0%Q else (3 # 4)%Q.

(** [{maxIterations: 3, convergenceTolerance: 0.1, errorRate: 0.5,
      enableAdaptiveStep: false}] *)
Definition rising_params : RetrocausalFixedPointSolver.Params :=
  RetrocausalFixedPointSolver.mkParams (Some 3) (Some (1 # 10)%Q) (Some (1 # 2)%Q)
    None (Some false).

(** A configuration with the given damping factor (the other fields are
    not read by [applyAdaptiveStep]). *)
Definition damped (df : Q) : RetrocausalFixedPointSolver.Config :=
  RetrocausalFixedPointSolver.mkConfig 10 (1 # 1000000)%Q 0%Q df true.

(** A fresh solver after one call on [[1, 0, 1, 1]] with zero error rate. *)
Definition after_first_call : RetrocausalFixedPointSolver.World :=
  snd (RetrocausalFixedPointSolver.solveFixedPoint thirds [1; 0; 1; 1] zero_rate_params
         (RetrocausalFixedPointSolver.mkWorld RetrocausalFixedPointSolver.create 0)).

End Samples.

(** * The convergence rate as the claim describes it *)

Module Claimed.

Import RetrocausalFixedPointSolver.

Fixpoint consecutive (l : list Q) : list (Q * Q) :=
  match l with
  | a :: ((b :: _) as t) => (a, b) :: consecutive t
  | _ => []
  end.

(** Following the claim's words: the mean of [-log(e_i / e_(i-1))] over all
    consecutive pairs of non-zero convergence errors from the third history
    entry on (0 when there is no such pair). *)
Definition claimed_convergenceRate (history : list IterationRecord) : R :=
  let pairs := filter (fun ab => negb (Qeq_bool (fst ab) 0) && negb (Qeq_bool (snd ab) 0))
                      (consecutive (skipn 1 (map convergenceError_r history))) in
  match pairs with
  | [] => 0%R
  | _ => (fold_right Rplus 0 (map (fun ab => - ln (Q2R (snd ab) / Q2R (fst ab))) pairs)
          / INR (length pairs))%R
  end.

(** The amended description, still in terms of the history: the mean of
    [-log(e_i / e_(i-1))] over the consecutive pairs, from the third history
    entry on, of positive errors that strictly decrease (0 when there is no
    such pair). *)
Definition decreasing_pair (ab : Q * Q) : bool :=
  Qltb 0 (fst ab) && Qltb 0 (snd ab) && Qltb (snd ab) (fst ab).

Definition neg_log_ratio (ab : Q * Q) : R := (- ln (Q2R (snd ab) / Q2R (fst ab)))%R.

Definition amended_convergenceRate (history : list IterationRecord) : R :=
  let pairs := filter decreasing_pair
                      (consecutive (skipn 1 (map convergenceError_r history))) in
  match pairs with
  | [] => 0%R
  | _ => (fold_right Rplus 0 (map neg_log_ratio pairs) / INR (length pairs))%R
  end.

End Claimed.

(** * Properties of the Hamming(7,4) code *)

Module HammingProofs.

Import HammingCode.

Lemma is_bit_cases (b : Z) : is_bit b = true -> b = 0 \/ b = 1.
Proof.
  unfold is_bit; intros H; apply orb_true_iff in H.
  destruct H as [H | H]; apply Z.eqb_eq in H; auto.
Qed.

Lemma validateDataBits_cases (d : list Z) :
  validateDataBits d = true ->
  exists a b c e, d = [a; b; c; e] /\
    (a = 0 \/ a = 1) /\ (b = 0 \/ b = 1) /\ (c = 0 \/ c = 1) /\ (e = 0 \/ e = 1).
Proof.
  unfold validateDataBits; intros H; apply andb_true_iff in H as [Hl Hb].
  destruct d as [|a [|b [|c [|e [|x t]]]]]; try discriminate Hl.
  simpl in Hb. repeat rewrite andb_true_iff in Hb.
  destruct Hb as (Ha & Hb' & Hc & He & _).
  exists a, b, c, e; repeat split; apply is_bit_cases; assumption.
Qed.

Lemma validateCodeword_bits (c : list Z) :
  validateCodeword c = true -> length c = 7%nat /\ Forall (fun b => b = 0 \/ b = 1) c.
Proof.
  unfold validateCodeword; intros H; apply andb_true_iff in H as [Hl Hb].
  split; [apply Nat.eqb_eq; exact Hl|].
  apply Forall_forall; intros x Hx.
  apply is_bit_cases. rewrite forallb_forall in Hb. auto.
Qed.

(** Case split on the sixteen 4-bit words, then evaluate. *)
Ltac sixteen_words H :=
  apply validateDataBits_cases in H;
  destruct H as (a & b & c & e & -> & Ha & Hb & Hc & He);
  destruct Ha as [-> | ->]; destruct Hb as [-> | ->];
  destruct Hc as [-> | ->]; destruct He as [-> | ->].

(** Claim C3: decoding an uncorrupted codeword returns the data word and
    reports no error, for each of the sixteen 4-bit data words. *)
Theorem decode_encode (d : list Z) :
  validateDataBits d = true ->
  match encode d with
  | Ok code =>
      match decode code with
      | Ok r => dataBits r = d /\ errorDetected r = false
      | Throw _ => False
      end
  | Throw _ => False
  end.
Proof.
  intros H; sixteen_words H; vm_compute; split; reflexivity.
Qed.

Lemma decode_encode_witness :
  validateDataBits [1; 0; 1; 1] = true /\
  match encode [1; 0; 1; 1] with
  | Ok code =>
      match decode code with
      | Ok r => dataBits r = [1; 0; 1; 1] /\ errorDetected r = false
      | Throw _ => False
      end
  | Throw _ => False
  end.
Proof.
  split; [reflexivity | apply decode_encode; reflexivity].
Defined.

(** Claim C1: flipping any one of the seven bits of a codeword and decoding
    returns the data word, reports an error, and gives the flipped position
    (0-based, as the array index of the flipped cell). *)
Theorem decode_single_error (d : list Z) (p : nat) :
  validateDataBits d = true ->
  (p < 7)%nat ->
  match encode d with
  | Ok code =>
      match decode (xor_at p code) with
      | Ok r => dataBits r = d /\ errorDetected r = true /\
                errorPosition r = Some (Z.of_nat p)
      | Throw _ => False
      end
  | Throw _ => False
  end.
Proof.
  intros H Hp; sixteen_words H;
  (do 7 (destruct p as [|p]; [vm_compute; repeat split; reflexivity|]); lia).
Qed.

Lemma decode_single_error_witness :
  validateDataBits [0; 1; 1; 0] = true /\ (4 < 7)%nat /\
  match encode [0; 1; 1; 0] with
  | Ok code =>
      match decode (xor_at 4 code) with
      | Ok r => dataBits r = [0; 1; 1; 0] /\ errorDetected r = true /\
                errorPosition r = Some (Z.of_nat 4)
      | Throw _ => False
      end
  | Throw _ => False
  end.
Proof.
  split; [reflexivity | split; [lia | apply decode_single_error; [reflexivity | lia]]].
Defined.

(** Claim C8: the minimum pairwise Hamming distance over the sixteen
    codewords of the codebook is 3. *)
Theorem minimum_distance_is_3 : calculateMinimumDistance = Ok (Finite 3).
Proof. vm_compute. reflexivity. Qed.

(** With a rate equal to 0 no draw in [[0, 1)] is below it. *)
Lemma injectErrors_rate_zero (random : nat -> Q) (er : Q) (code : list Z) (s : nat) :
  (forall n, 0 <= random n)%Q -> (er == 0)%Q ->
  injectErrors random code er s = (code, (s + length code)%nat).
Proof.
  intros Hr Her; revert s; induction code as [|b t IH]; intros s; simpl.
  - rewrite Nat.add_0_r; reflexivity.
  - rewrite IH.
    assert (Hlt : Qltb (random s) er = false).
    { unfold Qltb; apply negb_false_iff, Qle_bool_iff.
      rewrite Her; apply Hr. }
    rewrite Hlt, Nat.add_succ_r; reflexivity.
Qed.

(** With rate 1 every draw in [[0, 1)] is below it: each bit is flipped. *)
Lemma injectErrors_rate_one (random : nat -> Q) (code : list Z) (s : nat) :
  (forall n, random n < 1)%Q -> Forall (fun b => b = 0 \/ b = 1) code ->
  injectErrors random code 1 s = (map (fun b => 1 - b) code, (s + length code)%nat).
Proof.
  intros Hr Hbits; revert s; induction Hbits as [|b t Hb Ht IH]; intros s; simpl.
  - rewrite Nat.add_0_r; reflexivity.
  - rewrite IH.
    assert (Hlt : Qltb (random s) 1 = true).
    { unfold Qltb; apply negb_true_iff.
      destruct (Qle_bool 1 (random s)) eqn:E; [|reflexivity].
      apply Qle_bool_iff in E. specialize (Hr s).
      exfalso; apply (Qlt_not_le _ _ Hr E). }
    rewrite Hlt, Nat.add_succ_r.
    destruct Hb as [-> | ->]; reflexivity.
Qed.

(** Claim C5: for every 7-bit codeword and every sequence of draws of
    [Math.random()] in [[0, 1)], rate 0 returns the codeword unchanged and
    rate 1 returns its bitwise complement. *)
Theorem injectErrors_extreme_rates (random : nat -> Q) (code : list Z) (s : nat) :
  validateCodeword code = true ->
  (forall n, 0 <= random n /\ random n < 1)%Q ->
  fst (injectErrors random code 0 s) = code /\
  fst (injectErrors random code 1 s) = map (fun b => 1 - b) code.
Proof.
  intros Hc Hr; apply validateCodeword_bits in Hc as [_ Hbits]; split.
  - rewrite injectErrors_rate_zero; [reflexivity | apply Hr | reflexivity].
  - rewrite injectErrors_rate_one; [reflexivity | apply Hr | exact Hbits].
Qed.

Lemma injectErrors_extreme_rates_witness :
  validateCodeword [0; 1; 1; 0; 0; 1; 1] = true /\
  (forall n : nat, 0 <= Samples.thirds n /\ Samples.thirds n < 1)%Q /\
  fst (injectErrors Samples.thirds
         [0; 1; 1; 0; 0; 1; 1] 0 5) = [0; 1; 1; 0; 0; 1; 1] /\
  fst (injectErrors Samples.thirds
         [0; 1; 1; 0; 0; 1; 1] 1 5) = map (fun b => 1 - b) [0; 1; 1; 0; 0; 1; 1].
Proof.
  assert (Hr : forall n : nat, (0 <= Samples.thirds n /\ Samples.thirds n < 1)%Q).
  { intros n; unfold Samples.thirds.
    assert (Hm : (n mod 3 < 3)%nat) by (apply Nat.mod_upper_bound; lia).
    destruct (n mod 3)%nat as [|[|[|m]]]; [| | | lia];
      split; unfold Qle, Qlt; simpl; lia. }
  split; [reflexivity | split; [exact Hr | apply injectErrors_extreme_rates;
                                           [reflexivity | exact Hr]]].
Defined.

(** ** Further properties of the code *)

Lemma validateCodeword_cases (c : list Z) :
  validateCodeword c = true ->
  exists b0 b1 b2 b3 b4 b5 b6, c = [b0; b1; b2; b3; b4; b5; b6] /\
    (b0 = 0 \/ b0 = 1) /\ (b1 = 0 \/ b1 = 1) /\ (b2 = 0 \/ b2 = 1) /\
    (b3 = 0 \/ b3 = 1) /\ (b4 = 0 \/ b4 = 1) /\ (b5 = 0 \/ b5 = 1) /\
    (b6 = 0 \/ b6 = 1).
Proof.
  intros H; apply validateCodeword_bits in H as [Hl Hb].
  destruct c as [|b0 [|b1 [|b2 [|b3 [|b4 [|b5 [|b6 [|x t]]]]]]]]; try discriminate Hl.
  inversion Hb as [|? ? H0 Hb1]; subst.
  inversion Hb1 as [|? ? H1 Hb2]; subst.
  inversion Hb2 as [|? ? H2 Hb3]; subst.
  inversion Hb3 as [|? ? H3 Hb4]; subst.
  inversion Hb4 as [|? ? H4 Hb5]; subst.
  inversion Hb5 as [|? ? H5 Hb6]; subst.
  inversion Hb6 as [|? ? H6 _]; subst.
  exists b0, b1, b2, b3, b4, b5, b6; tauto.
Qed.

(** Case split on the 128 7-bit words. *)
Ltac all_7bit_words H :=
  apply validateCodeword_cases in H;
  destruct H as (b0 & b1 & b2 & b3 & b4 & b5 & b6 & -> & H0 & H1 & H2 & H3 & H4 & H5 & H6);
  destruct H0 as [-> | ->]; destruct H1 as [-> | ->]; destruct H2 as [-> | ->];
  destruct H3 as [-> | ->]; destruct H4 as [-> | ->]; destruct H5 as [-> | ->];
  destruct H6 as [-> | ->].

(** The codeword of [d1 d2 d3 d4] is [p1 p2 d1 p3 d2 d3 d4] with
    [p1 = d1^d2^d4], [p2 = d1^d3^d4], [p3 = d2^d3^d4], and its syndrome is
    zero. *)
Theorem encode_layout (d1 d2 d3 d4 : Z) :
  validateDataBits [d1; d2; d3; d4] = true ->
  encode [d1; d2; d3; d4] =
    Ok [Z.lxor (Z.lxor d1 d2) d4; Z.lxor (Z.lxor d1 d3) d4; d1;
        Z.lxor (Z.lxor d2 d3) d4; d2; d3; d4] /\
  calculateSyndrome [Z.lxor (Z.lxor d1 d2) d4; Z.lxor (Z.lxor d1 d3) d4; d1;
                     Z.lxor (Z.lxor d2 d3) d4; d2; d3; d4] = [0; 0; 0].
Proof.
  intros H; apply validateDataBits_cases in H;
  destruct H as (a & b & c & e & E & Ha & Hb & Hc & He);
  injection E as -> -> -> ->;
  destruct Ha as [-> | ->]; destruct Hb as [-> | ->];
  destruct Hc as [-> | ->]; destruct He as [-> | ->]; split; reflexivity.
Qed.

Lemma encode_layout_witness :
  validateDataBits [1; 1; 0; 1] = true /\
  encode [1; 1; 0; 1] =
    Ok [Z.lxor (Z.lxor 1 1) 1; Z.lxor (Z.lxor 1 0) 1; 1;
        Z.lxor (Z.lxor 1 0) 1; 1; 0; 1] /\
  calculateSyndrome [Z.lxor (Z.lxor 1 1) 1; Z.lxor (Z.lxor 1 0) 1; 1;
                     Z.lxor (Z.lxor 1 0) 1; 1; 0; 1] = [0; 0; 0].
Proof. split; [reflexivity | apply encode_layout; reflexivity]. Defined.

(** On every 7-bit word [decode] returns a syndrome value in [0..7], the
    position [syndromeValue - 1], an error flag set exactly when the
    syndrome is non-zero, and a corrected word that is the encoding of the
    returned data bits and differs from the input in at most that one
    position. *)
Theorem decode_total_on_7bit_words (c : list Z) :
  validateCodeword c = true ->
  match decode c with
  | Ok r =>
      0 <= syndromeValue r <= 7 /\
      errorPosition r = Some (syndromeValue r - 1) /\
      errorDetected r = negb (syndromeValue r =? 0) /\
      encode (dataBits r) = Ok (correctedCodeword r) /\
      hammingDistance c (correctedCodeword r) = (if errorDetected r then 1 else 0)
  | Throw _ => False
  end.
Proof.
  intros H; all_7bit_words H; vm_compute; repeat split; discriminate.
Qed.

Lemma decode_total_on_7bit_words_witness :
  validateCodeword [1; 1; 1; 1; 0; 0; 0] = true /\
  match decode [1; 1; 1; 1; 0; 0; 0] with
  | Ok r =>
      0 <= syndromeValue r <= 7 /\
      errorPosition r = Some (syndromeValue r - 1) /\
      errorDetected r = negb (syndromeValue r =? 0) /\
      encode (dataBits r) = Ok (correctedCodeword r) /\
      hammingDistance [1; 1; 1; 1; 0; 0; 0] (correctedCodeword r) =
        (if errorDetected r then 1 else 0)
  | Throw _ => False
  end.
Proof. split; [reflexivity | apply decode_total_on_7bit_words; reflexivity]. Defined.

(** Two flipped bits are always detected but never corrected: [decode]
    reports an error and returns data bits different from the encoded
    word. *)
Theorem decode_double_error_miscorrects (d : list Z) (p q : nat) :
  validateDataBits d = true -> (p < q)%nat -> (q < 7)%nat ->
  match encode d with
  | Ok code =>
      match decode (xor_at p (xor_at q code)) with
      | Ok r => errorDetected r = true /\ dataBits r <> d
      | Throw _ => False
      end
  | Throw _ => False
  end.
Proof.
  intros H Hpq Hq;
  destruct q as [|[|[|[|[|[|[|q]]]]]]]; destruct p as [|[|[|[|[|[|p]]]]]]; try lia;
  sixteen_words H; vm_compute; (split; [reflexivity | intros E; discriminate E]).
Qed.

Lemma decode_double_error_miscorrects_witness :
  validateDataBits [1; 0; 0; 1] = true /\ (2 < 5)%nat /\ (5 < 7)%nat /\
  match encode [1; 0; 0; 1] with
  | Ok code =>
      match decode (xor_at 2 (xor_at 5 code)) with
      | Ok r => errorDetected r = true /\ dataBits r <> [1; 0; 0; 1]
      | Throw _ => False
      end
  | Throw _ => False
  end.
Proof.
  split; [reflexivity | split; [lia | split; [lia|]]].
  apply decode_double_error_miscorrects; [reflexivity | lia | lia].
Defined.

Lemma cell_neq_sym (a b : option Z) : cell_neq a b = cell_neq b a.
Proof.
  destruct a as [x|], b as [y|]; simpl; try reflexivity; rewrite Z.eqb_sym; reflexivity.
Qed.

Lemma count_fold (f : nat -> bool) (l : list nat) (a : Z) :
  fold_left (fun d i => if f i then d + 1 else d) l a = a + Z.of_nat (length (filter f l)).
Proof.
  revert a; induction l as [|i l IH]; intros a; simpl; [lia|].
  destruct (f i); rewrite IH; simpl; lia.
Qed.

Lemma hammingDistance_props (w1 w2 : list Z) :
  length w1 = length w2 ->
  hammingDistance w1 w2 = hammingDistance w2 w1 /\
  0 <= hammingDistance w1 w2 <= Z.of_nat (length w1) /\
  (hammingDistance w1 w2 = 0 <-> w1 = w2).
Proof.
  intros Hl; unfold hammingDistance.
  rewrite !count_fold, <- Hl.
  split; [f_equal; f_equal; f_equal; apply filter_ext; intros; apply cell_neq_sym|].
  split.
  - split; [lia|]. pose proof (filter_length_le
      (fun i => cell_neq (nth_error w1 i) (nth_error w2 i)) (seq 0 (length w1))).
    rewrite length_seq in H; lia.
  - split.
    + intros H0.
      assert (Hnil : filter (fun i => cell_neq (nth_error w1 i) (nth_error w2 i))
                       (seq 0 (length w1)) = []).
      { destruct (filter _ _); [reflexivity | simpl in H0; lia]. }
      apply nth_error_ext; intros n.
      destruct (Nat.lt_ge_cases n (length w1)) as [Hn | Hn].
      * destruct (cell_neq (nth_error w1 n) (nth_error w2 n)) eqn:E.
        { assert (In n (filter (fun i => cell_neq (nth_error w1 i) (nth_error w2 i))
                          (seq 0 (length w1)))) as Hin
            by (apply filter_In; split; [apply in_seq; lia | exact E]).
          rewrite Hnil in Hin; destruct Hin. }
        destruct (nth_error w1 n) as [x|], (nth_error w2 n) as [y|];
          simpl in E; try discriminate E; [|reflexivity].
        apply negb_false_iff, Z.eqb_eq in E; subst; reflexivity.
      * rewrite (proj2 (nth_error_None w1 n)), (proj2 (nth_error_None w2 n));
          [reflexivity | lia | lia].
    + intros <-.
      induction (seq 0 (length w1)) as [|i l IH]; [reflexivity|].
      simpl; destruct (nth_error w1 i); simpl; [rewrite Z.eqb_refl|]; exact IH.
Qed.

(** [hammingDistance] on words of equal length is symmetric, zero on equal
    words, at most the length, and zero only on equal words. *)
Theorem hammingDistance_metric (w1 w2 : list Z) :
  length w1 = length w2 ->
  hammingDistance w1 w2 = hammingDistance w2 w1 /\
  0 <= hammingDistance w1 w2 <= Z.of_nat (length w1) /\
  (hammingDistance w1 w2 = 0 <-> w1 = w2).
Proof. apply hammingDistance_props. Qed.

Lemma hammingDistance_metric_witness :
  length [0; 1; 1; 0; 0; 1; 1] = length [1; 1; 1; 0; 0; 0; 0] /\
  hammingDistance [0; 1; 1; 0; 0; 1; 1] [1; 1; 1; 0; 0; 0; 0] =
    hammingDistance [1; 1; 1; 0; 0; 0; 0] [0; 1; 1; 0; 0; 1; 1] /\
  0 <= hammingDistance [0; 1; 1; 0; 0; 1; 1] [1; 1; 1; 0; 0; 0; 0]
    <= Z.of_nat (length [0; 1; 1; 0; 0; 1; 1]) /\
  (hammingDistance [0; 1; 1; 0; 0; 1; 1] [1; 1; 1; 0; 0; 0; 0] = 0 <->
   [0; 1; 1; 0; 0; 1; 1] = [1; 1; 1; 0; 0; 0; 0]).
Proof. split; [reflexivity | apply hammingDistance_metric; reflexivity]. Defined.

Lemma hammingDistance_fold_shift (l1 l2 : list Z) (x y : Z) (s n : nat) (acc : Z) :
  fold_left (fun d i => if cell_neq (nth_error (x :: l1) i) (nth_error (y :: l2) i)
                        then d + 1 else d) (seq (S s) n) acc =
  fold_left (fun d i => if cell_neq (nth_error l1 i) (nth_error l2 i)
                        then d + 1 else d) (seq s n) acc.
Proof. revert s acc; induction n as [|n IH]; intros s acc; simpl; [reflexivity | apply IH]. Qed.

Lemma hammingDistance_cons (a b : Z) (l1 l2 : list Z) :
  hammingDistance (a :: l1) (b :: l2) = (if a =? b then 0 else 1) + hammingDistance l1 l2.
Proof.
  unfold hammingDistance; cbn [length seq fold_left nth_error cell_neq].
  rewrite hammingDistance_fold_shift, !count_fold.
  destruct (a =? b); simpl; lia.
Qed.

(** [injectErrors] returns a word of the same length, consumes exactly one
    draw per position, and flips position [i] exactly when the [i]-th draw
    is below the error rate. *)
Theorem injectErrors_positionwise (random : nat -> Q) (c : list Z) (rate : Q) (s : nat) :
  length (fst (injectErrors random c rate s)) = length c /\
  snd (injectErrors random c rate s) = (s + length c)%nat /\
  (forall i, (i < length c)%nat ->
     nth i (fst (injectErrors random c rate s)) 0 =
     if Qltb (random (s + i)%nat) rate then Z.lxor (nth i c 0) 1 else nth i c 0).
Proof.
  revert s; induction c as [|b c IH]; intros s; simpl.
  - split; [reflexivity | split; [lia | intros i Hi; lia]].
  - destruct (injectErrors random c rate (S s)) as [rest s'] eqn:E.
    destruct (IH (S s)) as (Hl & Hs & Hn); rewrite E in Hl, Hs, Hn; simpl in *.
    split; [lia | split; [lia|]].
    intros [|i] Hi; simpl.
    + rewrite Nat.add_0_r; reflexivity.
    + rewrite Hn by lia; replace (s + S i)%nat with (S (s + i)) by lia; reflexivity.
Qed.

(** [generateCodebook] succeeds and lists each valid 4-bit data word exactly
    once, each beside its encoding. *)
Theorem generateCodebook_graph_of_encode :
  match generateCodebook with
  | Ok cb =>
      length cb = 16%nat /\
      (forall d, validateDataBits d = true <-> In d (map input cb)) /\
      NoDup (map input cb) /\
      (forall e, In e cb -> encode (input e) = Ok (codeword e))
  | Throw _ => False
  end.
Proof.
  unfold generateCodebook; simpl.
  split; [reflexivity|]. split; [|split].
  - intros d; split.
    + intros H; sixteen_words H; simpl; repeat first [left; reflexivity | right].
    + intros H; simpl in H; repeat (destruct H as [<- | H]; [reflexivity|]); destruct H.
  - repeat constructor; simpl; intuition discriminate.
  - intros e He; simpl in He; repeat (destruct He as [<- | He]; [reflexivity|]); destruct He.
Qed.

End HammingProofs.

(** * Properties of the fixed-point solver *)

Module SolverProofs.

Import RetrocausalFixedPointSolver.

(** Computations that only consume draws and leave [this] as it is. *)
Definition keeps_self {A} (m : M A) : Prop := forall w, self (snd (m w)) = self w.

Lemma keeps_ret {A} (a : A) : keeps_self (ret a).
Proof. intros w; reflexivity. Qed.

Lemma keeps_liftOutcome {A} (o : outcome A) : keeps_self (liftOutcome o).
Proof. intros w; reflexivity. Qed.

Lemma keeps_bind {A B} (m : M A) (k : A -> M B) :
  keeps_self m -> (forall a, keeps_self (k a)) -> keeps_self (bind m k).
Proof.
  intros Hm Hk w; unfold bind.
  specialize (Hm w); destruct (m w) as [[a | e] w'] eqn:E; simpl in *.
  - rewrite Hk; exact Hm.
  - exact Hm.
Qed.

Lemma keeps_mathRandom (random : nat -> Q) : keeps_self (mathRandom random).
Proof. intros w; reflexivity. Qed.

Lemma keeps_transmission (random : nat -> Q) (st : list Z) (rate : Q) :
  keeps_self (simulateTemporalTransmission random st rate).
Proof.
  intros w; unfold simulateTemporalTransmission.
  destruct (HammingCode.injectErrors random st rate (seed w)); reflexivity.
Qed.

Create HintDb keeps.
#[local] Hint Resolve keeps_ret keeps_liftOutcome keeps_bind keeps_mathRandom
  keeps_transmission : keeps.

Lemma keeps_evolution (random : nat -> Q) (input : list Z) (config : Config) :
  keeps_self (applySingleEvolutionCycle random input config).
Proof. unfold applySingleEvolutionCycle; eauto 10 with keeps. Qed.

Lemma keeps_adaptive (random : nat -> Q) (df : Q) (cur prev : list Z) :
  keeps_self (adaptive_loop random df cur prev).
Proof.
  revert prev; induction cur as [|c cur IH]; intros prev; simpl; [auto with keeps|].
  destruct prev as [|q prev]; [|destruct (c =? q)]; eauto 10 with keeps.
Qed.

#[local] Hint Resolve keeps_evolution keeps_adaptive : keeps.

Lemma convergenceError_fold_self (l : list Z) (idx : list nat) (a : Z) :
  fold_left (fun d i => if cell_neq (nth_error l i) (nth_error l i) then d + 1 else d)
            idx a = a.
Proof.
  revert a; induction idx as [|i idx IH]; intros a; simpl; [reflexivity|].
  destruct (nth_error l i) as [x|]; simpl; [rewrite Z.eqb_refl; simpl|]; apply IH.
Qed.

Lemma calculateConvergenceError_self (l : list Z) :
  (calculateConvergenceError l l == 0)%Q.
Proof.
  unfold calculateConvergenceError; rewrite convergenceError_fold_self.
  unfold Qdiv, Qeq; simpl; reflexivity.
Qed.

(** With rate 0 one evolution cycle of a valid data word returns that word
    and consumes seven draws. *)
Lemma evolution_zero_rate (random : nat -> Q) (d : list Z) (config : Config) (w : World) :
  HammingCode.validateDataBits d = true ->
  (forall n, 0 <= random n)%Q -> (errorRate config == 0)%Q ->
  exists ev, applySingleEvolutionCycle random d config w =
             (Ok ev, mkWorld (self w) (seed w + 7)) /\ finalData ev = d.
Proof.
  intros Hd Hr Her.
  unfold applySingleEvolutionCycle, simulateTemporalTransmission, bind, liftOutcome.
  HammingProofs.sixteen_words Hd; cbn -[HammingCode.injectErrors HammingCode.decode];
  (rewrite HammingProofs.injectErrors_rate_zero by assumption);
  eexists; split; reflexivity.
Qed.

Section Draws.

Variable random : nat -> Q.

(** [solveFixedPoint] as one reset, the loop, one statistics update and the
    report read from the final fields of [this]. *)
Lemma solveFixedPoint_unfold (d : list Z) (p : Params) (w : World) :
  solveFixedPoint random d p w =
  let config := mergeConfig (defaultParams (self w)) p in
  match fixedPointLoop random (Z.to_nat (maxIterations config)) config d
          (snd (resetIterationState w)) with
  | (Ok final, w2) =>
      let w3 := snd (updateStatistics w2) in
      (Ok (solutionReport final config (self w3)), w3)
  | (Throw e, w2) => (Throw e, w2)
  end.
Proof.
  unfold solveFixedPoint, bind, getsSelf; simpl.
  destruct (fixedPointLoop _ _ _ _ _) as [[final | e] w2]; reflexivity.
Qed.

Lemma solveFixedPoint_report (d : list Z) (p : Params) (w : World) (r : SolutionReport) :
  fst (solveFixedPoint random d p w) = Ok r ->
  exists final s, r = solutionReport final (mergeConfig (defaultParams (self w)) p) s.
Proof.
  rewrite solveFixedPoint_unfold; cbv zeta.
  destruct (fixedPointLoop _ _ _ _ _) as [[final | e] w2]; simpl; intros H;
    inversion H; eauto.
Qed.

(** Loop invariant: before pass number [currentIteration], the history
    holds one record per earlier pass and no pass has converged.  A loop
    that returns without converging has made [maxIterations] passes. *)
Lemma fixedPointLoop_exhausted (fuel : nat) (config : Config) (data : list Z) (w : World) :
  currentIteration (self w) + Z.of_nat fuel = maxIterations config ->
  0 <= currentIteration (self w) ->
  length (convergenceHistory (self w)) = Z.to_nat (currentIteration (self w)) ->
  isConverged (self w) = false ->
  match fixedPointLoop random fuel config data w with
  | (Ok _, w') =>
      isConverged (self w') = false ->
      currentIteration (self w') = maxIterations config /\
      length (convergenceHistory (self w')) = Z.to_nat (maxIterations config)
  | (Throw _, _) => True
  end.
Proof.
  revert data w; induction fuel as [|fuel IH]; intros data w Hsum Hpos Hlen Hconv.
  - simpl; intros _; split; [lia | rewrite Hlen; f_equal; lia].
  - cbn [fixedPointLoop]; unfold bind at 1, getsSelf at 1; cbv beta iota.
    replace (currentIteration (self w) <? maxIterations config) with true
      by (symmetry; apply Z.ltb_lt; lia).
    unfold bind at 1.
    pose proof (keeps_evolution random data config w) as Hk.
    destruct (applySingleEvolutionCycle random data config w) as [[ev | e] w1];
      simpl in Hk; [|exact I].
    unfold bind at 1, modifySelf at 1; cbv beta iota.
    unfold bind at 1, recordIterationStep at 1, modifySelf at 1; cbv beta iota.
    destruct (Qle_bool _ _).
    + simpl; intros H; discriminate H.
    + unfold bind at 1.
      match goal with
      | |- context [ (if ?b then ?a1 else ?a2) ?ww ] =>
          assert (Hn : keeps_self (if b then a1 else a2))
            by (destruct b; unfold applyAdaptiveStep; auto with keeps);
          specialize (Hn ww);
          destruct ((if b then a1 else a2) ww) as [[next | e] w2]; [|exact I]
      end.
      simpl in Hn.
      unfold bind at 1, modifySelf at 1; cbv beta iota.
      apply IH; simpl; rewrite Hn; simpl; rewrite ?Hk.
      * lia.
      * lia.
      * rewrite length_app, Hlen; simpl; lia.
      * exact Hconv.
Qed.

End Draws.

(** Claim C4: with [errorRate] 0, a valid 4-bit word, [maxIterations > 0]
    and a non-negative tolerance, the call converges to the initial word,
    whatever the damping settings, within at most 3 iterations. *)
Theorem zero_error_rate_converges (random : nat -> Q) (d : list Z) (p : Params) (w : World) :
  HammingCode.validateDataBits d = true ->
  (forall n, 0 <= random n)%Q ->
  (errorRate (mergeConfig (defaultParams (self w)) p) == 0)%Q ->
  0 < maxIterations (mergeConfig (defaultParams (self w)) p) ->
  (0 <= convergenceTolerance (mergeConfig (defaultParams (self w)) p))%Q ->
  match fst (solveFixedPoint random d p w) with
  | Ok r => converged r = true /\ finalState r = d /\ iterations r <= 3
  | Throw _ => False
  end.
Proof.
  intros Hd Hr Her Hm Htol; rewrite solveFixedPoint_unfold; cbv zeta.
  set (config := mergeConfig (defaultParams (self w)) p) in *.
  destruct (Z.to_nat (maxIterations config)) as [|fuel] eqn:Efuel; [lia|].
  cbn [fixedPointLoop]; unfold bind at 1, getsSelf at 1; cbv beta iota.
  replace (currentIteration (self (snd (resetIterationState w))) <? maxIterations config)
    with true by (symmetry; apply Z.ltb_lt; exact Hm).
  destruct (evolution_zero_rate random d config (snd (resetIterationState w)) Hd Hr Her)
    as (ev & Hev & Hfin).
  unfold bind at 1; rewrite Hev; cbv beta iota.
  rewrite Hfin.
  replace (Qle_bool (calculateConvergenceError d d) (convergenceTolerance config))
    with true.
  - simpl; split; [reflexivity | split; [reflexivity | lia]].
  - symmetry; apply Qle_bool_iff.
    rewrite calculateConvergenceError_self; exact Htol.
Qed.

Lemma zero_error_rate_converges_witness :
  HammingCode.validateDataBits [0; 1; 1; 0] = true /\
  (forall n, 0 <= Samples.thirds n)%Q /\
  (errorRate (mergeConfig (defaultParams (self (mkWorld create 0)))
                Samples.zero_rate_params) == 0)%Q /\
  0 < maxIterations (mergeConfig (defaultParams (self (mkWorld create 0)))
                       Samples.zero_rate_params) /\
  (0 <= convergenceTolerance (mergeConfig (defaultParams (self (mkWorld create 0)))
                                Samples.zero_rate_params))%Q /\
  match fst (solveFixedPoint Samples.thirds [0; 1; 1; 0] Samples.zero_rate_params
               (mkWorld create 0)) with
  | Ok r => converged r = true /\ finalState r = [0; 1; 1; 0] /\ iterations r <= 3
  | Throw _ => False
  end.
Proof.
  assert (Hr : forall n, (0 <= Samples.thirds n)%Q) by apply Samples.thirds_range.
  split; [reflexivity|]. split; [exact Hr|].
  split; [reflexivity|]. split; [reflexivity|]. split; [discriminate|].
  apply zero_error_rate_converges;
    [reflexivity | exact Hr | reflexivity | reflexivity | discriminate].
Defined.


Lemma analyze_fold_diag (h : list IterationRecord) (a : Z) :
  exists b, fold_left (fun acc step =>
               if errorsCorrected step then (fst acc + 1, snd acc + 1) else acc)
             h (a, a) = (b, b).
Proof.
  revert a; induction h as [|step h IH]; intros a; simpl; [eauto|].
  destruct (errorsCorrected step); apply IH.
Qed.

Lemma analyzeErrorCorrection_efficiency (h : list IterationRecord) :
  (correctionEfficiency (analyzeErrorCorrection h) == 1)%Q.
Proof.
  unfold analyzeErrorCorrection.
  destruct (analyze_fold_diag h 0) as [b Hb]; rewrite Hb; simpl.
  destruct (0 <? b) eqn:Hpos; [|reflexivity].
  apply Z.ltb_lt in Hpos.
  unfold Qdiv; apply Qmult_inv_r.
  unfold Qeq; simpl; lia.
Qed.

(** Claim C10: whatever the inputs, the parameters and the draws, the
    report of a [solveFixedPoint] call that returns has a correction
    efficiency of exactly 1. *)
Theorem correctionEfficiency_is_one (random : nat -> Q) (d : list Z) (p : Params) (w : World) :
  match fst (solveFixedPoint random d p w) with
  | Ok r => (correctionEfficiency (errorCorrectionStats r) == 1)%Q
  | Throw _ => True
  end.
Proof.
  destruct (fst (solveFixedPoint random d p w)) as [r|e] eqn:E; [|exact I].
  apply solveFixedPoint_report in E as (final & s & ->).
  apply analyzeErrorCorrection_efficiency.
Qed.

(** Claim C2 (the code does not reject a negative [maxIterations]): the
    call returns a report instead of throwing, and it still counts a run in
    the solver's statistics. *)
Theorem negative_maxIterations_not_rejected (random : nat -> Q) (d : list Z) (p : Params)
    (w : World) :
  maxIterations (mergeConfig (defaultParams (self w)) p) < 0 ->
  (exists r, fst (solveFixedPoint random d p w) = Ok r) /\
  totalRuns (statistics (self (snd (solveFixedPoint random d p w)))) =
  totalRuns (statistics (self w)) + 1.
Proof.
  intros Hneg; rewrite solveFixedPoint_unfold; cbv zeta.
  replace (Z.to_nat (maxIterations (mergeConfig (defaultParams (self w)) p))) with O by lia.
  simpl; split; [eauto | reflexivity].
Qed.

Lemma negative_maxIterations_not_rejected_witness :
  maxIterations (mergeConfig (defaultParams (self (mkWorld create 0)))
                   (mkParams (Some (-1)) None None None None)) < 0 /\
  (exists r, fst (solveFixedPoint Samples.thirds [1; 0; 1; 0]
                    (mkParams (Some (-1)) None None None None) (mkWorld create 0)) = Ok r) /\
  totalRuns (statistics (self (snd (solveFixedPoint Samples.thirds [1; 0; 1; 0]
                    (mkParams (Some (-1)) None None None None) (mkWorld create 0))))) =
  totalRuns (statistics (self (mkWorld create 0))) + 1.
Proof.
  split; [vm_compute; reflexivity | apply negative_maxIterations_not_rejected].
  vm_compute; reflexivity.
Defined.

(** Claim C9: a call that stops without converging, with a non-negative
    [maxIterations], has a history of exactly [maxIterations] records and
    reports [iterations = maxIterations + 1]. *)
Theorem exhausted_run_counts (random : nat -> Q) (d : list Z) (p : Params) (w : World) :
  0 <= maxIterations (mergeConfig (defaultParams (self w)) p) ->
  match fst (solveFixedPoint random d p w) with
  | Ok r =>
      converged r = false ->
      length (convergenceHistory_r r) =
        Z.to_nat (maxIterations (mergeConfig (defaultParams (self w)) p)) /\
      iterations r = maxIterations (mergeConfig (defaultParams (self w)) p) + 1
  | Throw _ => True
  end.
Proof.
  intros Hm; rewrite solveFixedPoint_unfold; cbv zeta.
  set (config := mergeConfig (defaultParams (self w)) p) in *.
  pose proof (fixedPointLoop_exhausted random (Z.to_nat (maxIterations config)) config d
                (snd (resetIterationState w))) as H.
  assert (Hsum : currentIteration (self (snd (resetIterationState w)))
                 + Z.of_nat (Z.to_nat (maxIterations config)) = maxIterations config)
    by (rewrite Z2Nat.id by exact Hm; reflexivity).
  specialize (H Hsum ltac:(simpl; lia) eq_refl eq_refl); clear Hsum.
  destruct (fixedPointLoop random (Z.to_nat (maxIterations config)) config d
              (snd (resetIterationState w))) as [[final | e] w2]; [|exact I].
  simpl; intros Hc.
  destruct (H Hc) as [Hci Hlen].
  split; [exact Hlen | rewrite Hci; reflexivity].
Qed.

Lemma exhausted_run_counts_witness :
  0 <= maxIterations (mergeConfig (defaultParams (self (mkWorld create 0))) Samples.rising_params) /\
  match fst (solveFixedPoint Samples.rising_draws [0; 0; 0; 0] Samples.rising_params (mkWorld create 0)) with
  | Ok r =>
      converged r = false ->
      length (convergenceHistory_r r) = Z.to_nat (maxIterations (mergeConfig (defaultParams (self (mkWorld create 0))) Samples.rising_params)) /\
      iterations r = maxIterations (mergeConfig (defaultParams (self (mkWorld create 0))) Samples.rising_params) + 1
  | Throw _ => True
  end.
Proof.
  split; [vm_compute; discriminate | apply exhausted_run_counts; vm_compute; discriminate].
Defined.

(** The run above does exhaust its three passes. *)
Example rising_run_exhausts :
  match fst (solveFixedPoint Samples.rising_draws [0; 0; 0; 0] Samples.rising_params (mkWorld create 0)) with
  | Ok r => converged r = false /\ length (convergenceHistory_r r) = 3%nat /\
            iterations r = 4
  | Throw _ => False
  end.
Proof. lazy; repeat split. Qed.

Lemma ln_ratio_pos (a b : Q) :
  (0 < a)%Q -> (a < b)%Q -> (0 < ln (Q2R b / Q2R a))%R.
Proof.
  intros Ha Hab; apply Qlt_Rlt in Ha, Hab; rewrite RMicromega.Q2R_0 in Ha.
  rewrite <- ln_1; apply ln_increasing; [lra|].
  apply (Rmult_lt_reg_r (Q2R a)); [lra|].
  unfold Rdiv; rewrite Rmult_assoc, Rinv_l, Rmult_1_r, Rmult_1_l by lra; exact Hab.
Qed.

(** A rising pair of errors contributes nothing to the code's rate. *)
Lemma rate_loop_rising (a b : Q) (sum : R) (n : nat) :
  (0 < a)%Q -> (a < b)%Q -> rate_loop a [b] sum n = (sum, n).
Proof.
  intros Ha Hab; simpl.
  assert (Hb : (0 < b)%Q) by (apply (Qlt_trans _ a); assumption).
  unfold Qltb.
  replace (Qle_bool a 0) with false
    by (symmetry; apply not_true_iff_false; rewrite Qle_bool_iff;
        apply Qlt_not_le; exact Ha).
  replace (Qle_bool b 0) with false
    by (symmetry; apply not_true_iff_false; rewrite Qle_bool_iff;
        apply Qlt_not_le; exact Hb).
  simpl; destruct (Rlt_dec _ _) as [Hlt | _]; [|reflexivity].
  pose proof (ln_ratio_pos a b Ha Hab); lra.
Qed.

(** Claim C6 fails: in a reachable three-pass run, with errors 1/4, 1/4,
    1/2, the code reports a rate of 0, because it drops the rising pair
    (1/4, 1/2), while the mean of the negative log-ratios is [-ln 2]. *)
Lemma convergenceRate_counterexample :
  match fst (solveFixedPoint Samples.rising_draws [0; 0; 0; 0] Samples.rising_params
               (mkWorld create 0)) with
  | Ok r => length (convergenceHistory_r r) = 3%nat /\
            convergenceRate r <> Claimed.claimed_convergenceRate (convergenceHistory_r r)
  | Throw _ => False
  end.
Proof.
  lazy -[calculateConvergenceRate Claimed.claimed_convergenceRate].
  split; [reflexivity|].
  unfold calculateConvergenceRate, Claimed.claimed_convergenceRate.
  cbv [length Nat.ltb Nat.leb map convergenceError_r].
  rewrite rate_loop_rising by (unfold Qlt; simpl; lia).
  set (pairs := filter _ _).
  assert (Hp : pairs = [((1 # 4)%Q, (2 # 4)%Q)]) by reflexivity.
  rewrite Hp; cbn [fold_right length fst snd].
  pose proof (ln_ratio_pos (1 # 4) (2 # 4) ltac:(unfold Qlt; simpl; lia)
                ltac:(unfold Qlt; simpl; lia)) as Hln.
  rewrite INR_1; intros H; lra.
Qed.

Lemma ln_ratio_neg_iff (a b : Q) :
  (0 < a)%Q -> (0 < b)%Q -> ((ln (Q2R b / Q2R a) < 0)%R <-> (b < a)%Q).
Proof.
  intros Ha Hb.
  pose proof (Qlt_Rlt _ _ Ha) as Ha'; pose proof (Qlt_Rlt _ _ Hb) as Hb'.
  rewrite RMicromega.Q2R_0 in Ha', Hb'.
  split.
  - intros Hln. destruct (Qlt_le_dec b a) as [Hlt | Hle]; [exact Hlt|].
    exfalso. apply Qle_Rle in Hle.
    destruct (Rle_lt_or_eq_dec _ _ Hle) as [Hlt | Heq].
    + apply Rlt_Qlt in Hlt. pose proof (ln_ratio_pos a b Ha Hlt); lra.
    + rewrite Heq in Hln. unfold Rdiv in Hln; rewrite Rinv_r in Hln by lra.
      rewrite ln_1 in Hln; lra.
  - intros Hlt; apply Qlt_Rlt in Hlt.
    rewrite <- ln_1; apply ln_increasing.
    + unfold Rdiv; apply Rmult_lt_0_compat; [lra | apply Rinv_0_lt_compat; lra].
    + apply (Rmult_lt_reg_r (Q2R a)); [lra|].
      unfold Rdiv; rewrite Rmult_assoc, Rinv_l, Rmult_1_r, Rmult_1_l by lra; exact Hlt.
Qed.

Lemma Qltb_true (x y : Q) : Qltb x y = true <-> (x < y)%Q.
Proof.
  unfold Qltb; rewrite negb_true_iff, <- not_true_iff_false, Qle_bool_iff.
  split; [apply Qnot_le_lt | apply Qlt_not_le].
Qed.

(** The loop of [calculateConvergenceRate] sums [|rate|] over the strictly
    decreasing pairs of positive errors, and counts them. *)
Lemma rate_loop_decreasing (rest : list Q) (prev : Q) (sum : R) (n : nat) :
  rate_loop prev rest sum n =
  ((sum + fold_right Rplus 0 (map Claimed.neg_log_ratio
            (filter Claimed.decreasing_pair (Claimed.consecutive (prev :: rest)))))%R,
   (n + length (filter Claimed.decreasing_pair (Claimed.consecutive (prev :: rest))))%nat).
Proof.
  revert prev sum n; induction rest as [|cur rest IH]; intros prev sum n.
  - simpl; rewrite Rplus_0_r, Nat.add_0_r; reflexivity.
  - change (Claimed.consecutive (prev :: cur :: rest))
      with ((prev, cur) :: Claimed.consecutive (cur :: rest)).
    cbn [rate_loop filter].
    change (Claimed.decreasing_pair (prev, cur))
      with (Qltb 0 prev && Qltb 0 cur && Qltb cur prev).
    destruct (Qltb 0 prev) eqn:Hp; destruct (Qltb 0 cur) eqn:Hc; cbn [andb];
      try (rewrite IH; reflexivity).
    apply Qltb_true in Hp, Hc.
    destruct (Rlt_dec _ _) as [Hlt | Hnlt].
    + assert (Hd : Qltb cur prev = true)
        by (apply Qltb_true, (ln_ratio_neg_iff prev cur Hp Hc); exact Hlt).
      rewrite Hd, IH; cbn [map fold_right length].
      rewrite Rabs_left by exact Hlt.
      unfold Claimed.neg_log_ratio; cbn [fst snd].
      f_equal; [ring | simpl; lia].
    + assert (Hd : Qltb cur prev = false).
      { apply not_true_iff_false; rewrite Qltb_true.
        rewrite <- (ln_ratio_neg_iff prev cur Hp Hc); exact Hnlt. }
      rewrite Hd, IH; reflexivity.
Qed.

Lemma calculateConvergenceRate_amended (history : list IterationRecord) :
  calculateConvergenceRate history = Claimed.amended_convergenceRate history.
Proof.
  unfold calculateConvergenceRate, Claimed.amended_convergenceRate.
  destruct history as [|r0 [|r1 [|r2 t]]]; [reflexivity | reflexivity | reflexivity |].
  cbn [length Nat.ltb Nat.leb map skipn].
  rewrite rate_loop_decreasing, Rplus_0_l, Nat.add_0_l.
  destruct (filter _ _) as [|pr l]; reflexivity.
Qed.

(** Claim C6, amended: the convergence rate of every report is the mean of
    [|log(e_i / e_(i-1))|] over the consecutive pairs, from the third
    history entry on, of positive errors that strictly decrease; pairs
    whose error rises or stays equal are left out, and the rate is 0 when
    there is no such pair. *)
Theorem convergenceRate_decreasing_pairs (random : nat -> Q) (d : list Z) (p : Params)
    (w : World) :
  match fst (solveFixedPoint random d p w) with
  | Ok r => convergenceRate r = Claimed.amended_convergenceRate (convergenceHistory_r r)
  | Throw _ => True
  end.
Proof.
  destruct (fst (solveFixedPoint random d p w)) as [r|e] eqn:E; [|exact I].
  apply solveFixedPoint_report in E as (final & s & ->).
  apply calculateConvergenceRate_amended.
Qed.

(** Replacing the statistics object of [this]. *)
Definition frame (st : Statistics) (w : World) : World :=
  mkWorld (set_statistics st (self w)) (seed w).

(** A computation that neither reads nor writes the statistics. *)
Definition stats_frame {A} (m : M A) : Prop :=
  forall st w, m (frame st w) = (fst (m w), frame st (snd (m w))).

Lemma frame_ret {A} (a : A) : stats_frame (ret a).
Proof. intros st w; reflexivity. Qed.

Lemma frame_liftOutcome {A} (o : outcome A) : stats_frame (liftOutcome o).
Proof. intros st w; reflexivity. Qed.

Lemma frame_bind {A B} (m : M A) (k : A -> M B) :
  stats_frame m -> (forall a, stats_frame (k a)) -> stats_frame (bind m k).
Proof.
  intros Hm Hk st w; unfold bind; rewrite Hm.
  destruct (m w) as [[a | e] w']; simpl; [apply Hk | reflexivity].
Qed.

Lemma frame_mathRandom (random : nat -> Q) : stats_frame (mathRandom random).
Proof. intros st w; reflexivity. Qed.

Lemma frame_transmission (random : nat -> Q) (st0 : list Z) (rate : Q) :
  stats_frame (simulateTemporalTransmission random st0 rate).
Proof.
  intros st w; unfold simulateTemporalTransmission; simpl.
  destruct (HammingCode.injectErrors random st0 rate (seed w)); reflexivity.
Qed.

Lemma frame_getsSelf {A} (f : Solver -> A) :
  (forall st s, f (set_statistics st s) = f s) -> stats_frame (getsSelf f).
Proof. intros Hf st w; unfold getsSelf; simpl; rewrite Hf; reflexivity. Qed.

Lemma frame_modifySelf (f : Solver -> Solver) :
  (forall st s, f (set_statistics st s) = set_statistics st (f s)) ->
  stats_frame (modifySelf f).
Proof. intros Hf st w; unfold modifySelf, frame; simpl; rewrite Hf; reflexivity. Qed.

Create HintDb frame.
#[local] Hint Resolve frame_ret frame_liftOutcome frame_bind frame_mathRandom
  frame_transmission : frame.
#[local] Hint Extern 1 (stats_frame (getsSelf _)) =>
  apply frame_getsSelf; intros; reflexivity : frame.
#[local] Hint Extern 1 (stats_frame (modifySelf _)) =>
  apply frame_modifySelf; intros; reflexivity : frame.
#[local] Hint Extern 2 (stats_frame (if _ then _ else _)) =>
  match goal with |- context [if ?b then _ else _] => destruct b end : frame.

Lemma frame_evolution (random : nat -> Q) (input : list Z) (config : Config) :
  stats_frame (applySingleEvolutionCycle random input config).
Proof. unfold applySingleEvolutionCycle; eauto 10 with frame. Qed.

Lemma frame_adaptive (random : nat -> Q) (df : Q) (cur prev : list Z) :
  stats_frame (adaptive_loop random df cur prev).
Proof.
  revert prev; induction cur as [|c cur IH]; intros prev; simpl; [auto with frame|].
  destruct prev as [|q prev]; [|destruct (c =? q)]; eauto 10 with frame.
Qed.

Lemma frame_recordIterationStep (cur : list Z) (err : Q) (ev : EvolutionResult) :
  stats_frame (recordIterationStep cur err ev).
Proof. unfold recordIterationStep; auto with frame. Qed.

#[local] Hint Resolve frame_evolution frame_adaptive frame_recordIterationStep : frame.

Lemma frame_fixedPointLoop (random : nat -> Q) (fuel : nat) (config : Config)
    (data : list Z) :
  stats_frame (fixedPointLoop random fuel config data).
Proof.
  revert data; induction fuel as [|fuel IH]; intros data; simpl; [auto with frame|].
  apply frame_bind; [auto with frame|]; intros ci.
  destruct (ci <? maxIterations config); [|auto with frame].
  apply frame_bind; [auto with frame|]; intros ev.
  apply frame_bind; [auto with frame|]; intros [].
  apply frame_bind; [auto with frame|]; intros [].
  destruct (Qle_bool _ _); [eauto with frame|].
  apply frame_bind; [unfold applyAdaptiveStep; destruct (enableAdaptiveStep config);
                     auto with frame|]; intros next.
  apply frame_bind; [auto with frame|]; intros []; apply IH.
Qed.

(** After the reset at the start of a call, two solvers with the same
    default parameters differ at most in their statistics. *)
Lemma reset_frame (w1 w2 : World) :
  defaultParams (self w1) = defaultParams (self w2) -> seed w1 = seed w2 ->
  snd (resetIterationState w2) =
  frame (statistics (self w2)) (snd (resetIterationState w1)).
Proof.
  destruct w1 as [[dp1 h1 c1 i1 e1 st1] s1], w2 as [[dp2 h2 c2 i2 e2 st2] s2].
  simpl; intros -> ->; reflexivity.
Qed.

Lemma frame_keeps_statistics {A} (m : M A) (w : World) :
  stats_frame m -> statistics (self (snd (m w))) = statistics (self w).
Proof.
  intros Hm; specialize (Hm (statistics (self w)) w).
  assert (Hw : frame (statistics (self w)) w = w)
    by (destruct w as [[dp h c i e st] sd]; reflexivity).
  rewrite Hw in Hm; rewrite Hm; reflexivity.
Qed.

(** Each call that returns adds one run to the shared statistics. *)
Lemma solve_counts_run (random : nat -> Q) (d : list Z) (p : Params) (w : World) :
  match fst (solveFixedPoint random d p w) with
  | Ok _ => totalRuns (statistics (self (snd (solveFixedPoint random d p w)))) =
            totalRuns (statistics (self w)) + 1
  | Throw _ => True
  end.
Proof.
  rewrite solveFixedPoint_unfold; cbv zeta.
  pose proof (frame_keeps_statistics
                (fixedPointLoop random
                   (Z.to_nat (maxIterations (mergeConfig (defaultParams (self w)) p)))
                   (mergeConfig (defaultParams (self w)) p) d)
                (snd (resetIterationState w)) (frame_fixedPointLoop _ _ _ _)) as Hst.
  destruct (fixedPointLoop _ _ _ _ (snd (resetIterationState w))) as [[final | e] w'];
    simpl in *; [|exact I].
  rewrite Hst; reflexivity.
Qed.

Lemma solve_statistics (random : nat -> Q) (d : list Z) (p : Params) (w : World) :
  match solveFixedPoint random d p w with
  | (Ok r, w') =>
      statistics (self w') =
      {| totalRuns := totalRuns (statistics (self w)) + 1;
         successfulConvergences :=
           if converged r then successfulConvergences (statistics (self w)) + 1
           else successfulConvergences (statistics (self w));
         averageIterations :=
           ((1 # 10) * inject_Z (iterations r)
            + (1 - (1 # 10)) * averageIterations (statistics (self w)))%Q;
         convergenceRates := convergenceRates (statistics (self w));
         errorCorrectionEffectiveness := errorCorrectionEffectiveness (statistics (self w)) |}
  | (Throw _, w') => statistics (self w') = statistics (self w)
  end.
Proof.
  rewrite solveFixedPoint_unfold; cbv zeta.
  pose proof (frame_keeps_statistics
                (fixedPointLoop random
                   (Z.to_nat (maxIterations (mergeConfig (defaultParams (self w)) p)))
                   (mergeConfig (defaultParams (self w)) p) d)
                (snd (resetIterationState w)) (frame_fixedPointLoop _ _ _ _)) as Hst.
  destruct (fixedPointLoop _ _ _ _ (snd (resetIterationState w))) as [[final | e] w'];
    simpl in *; rewrite Hst; reflexivity.
Qed.

(** Claim C7, amended: the report of a call depends only on the initial
    word, the parameters, the solver's default parameters and the random
    draws it consumes; whatever earlier calls left in [this] does not change
    it, and the call consumes the same draws.  The history in the report
    lists the records that [this.convergenceHistory] holds after the call.
    The statistics object is shared across calls: a call that returns adds
    one to [totalRuns], one to [successfulConvergences] when it converged,
    and moves [averageIterations] a tenth of the way to its [iterations];
    [getStatus] then reports the accumulated run count and success rate.  A
    call that throws leaves the statistics as they were. *)
Theorem solve_report_independent_of_earlier_calls (random : nat -> Q) (d : list Z)
    (p : Params) (w1 w2 : World) :
  defaultParams (self w1) = defaultParams (self w2) -> seed w1 = seed w2 ->
  fst (solveFixedPoint random d p w1) = fst (solveFixedPoint random d p w2) /\
  seed (snd (solveFixedPoint random d p w1)) = seed (snd (solveFixedPoint random d p w2)) /\
  match solveFixedPoint random d p w2 with
  | (Ok r, w') =>
      convergenceHistory_r r = convergenceHistory (self w') /\
      totalRuns (statistics (self w')) = totalRuns (statistics (self w2)) + 1 /\
      successfulConvergences (statistics (self w')) =
        (if converged r then successfulConvergences (statistics (self w2)) + 1
         else successfulConvergences (statistics (self w2))) /\
      averageIterations (statistics (self w')) =
        ((1 # 10) * inject_Z (iterations r)
         + (1 - (1 # 10)) * averageIterations (statistics (self w2)))%Q /\
      exists st, fst (getStatus w') = Ok st /\
        st_totalRuns st = totalRuns (statistics (self w')) /\
        successRate st =
          (if 0 <? totalRuns (statistics (self w'))
           then inject_Z (successfulConvergences (statistics (self w'))) /
                inject_Z (totalRuns (statistics (self w')))
           else 0)%Q
  | (Throw _, w') => statistics (self w') = statistics (self w2)
  end.
Proof.
  intros Hdp Hseed; split; [|split].
  - rewrite !solveFixedPoint_unfold; cbv zeta.
    rewrite <- Hdp, (reset_frame w1 w2 Hdp Hseed), frame_fixedPointLoop.
    destruct (fixedPointLoop _ _ _ _ (snd (resetIterationState w1))) as [[final | e] w'];
      reflexivity.
  - rewrite !solveFixedPoint_unfold; cbv zeta.
    rewrite <- Hdp, (reset_frame w1 w2 Hdp Hseed), frame_fixedPointLoop.
    destruct (fixedPointLoop _ _ _ _ (snd (resetIterationState w1))) as [[final | e] w'];
      reflexivity.
  - pose proof (solve_statistics random d p w2) as Hs.
    rewrite solveFixedPoint_unfold in Hs |- *; cbv zeta in Hs |- *.
    destruct (fixedPointLoop _ _ _ _ (snd (resetIterationState w2))) as [[final | e] w'];
      [|exact Hs].
    split; [reflexivity|].
    split; [rewrite Hs; reflexivity|]. split; [rewrite Hs; reflexivity|].
    split; [rewrite Hs; reflexivity|].
    eexists; split; [reflexivity|]. split; reflexivity.
Qed.

Lemma solve_report_independent_of_earlier_calls_witness :
  defaultParams (self (mkWorld create 7)) = defaultParams (self Samples.after_first_call) /\
  seed (mkWorld create 7) = seed Samples.after_first_call /\
  fst (solveFixedPoint Samples.thirds [0; 1; 1; 0] Samples.zero_rate_params (mkWorld create 7)) = fst (solveFixedPoint Samples.thirds [0; 1; 1; 0] Samples.zero_rate_params Samples.after_first_call) /\
  seed (snd (solveFixedPoint Samples.thirds [0; 1; 1; 0] Samples.zero_rate_params (mkWorld create 7))) = seed (snd (solveFixedPoint Samples.thirds [0; 1; 1; 0] Samples.zero_rate_params Samples.after_first_call)) /\
  match solveFixedPoint Samples.thirds [0; 1; 1; 0] Samples.zero_rate_params Samples.after_first_call with
  | (Ok r, w') =>
      convergenceHistory_r r = convergenceHistory (self w') /\
      totalRuns (statistics (self w')) = totalRuns (statistics (self Samples.after_first_call)) + 1 /\
      successfulConvergences (statistics (self w')) =
        (if converged r then successfulConvergences (statistics (self Samples.after_first_call)) + 1
         else successfulConvergences (statistics (self Samples.after_first_call))) /\
      averageIterations (statistics (self w')) =
        ((1 # 10) * inject_Z (iterations r)
         + (1 - (1 # 10)) * averageIterations (statistics (self Samples.after_first_call)))%Q /\
      exists st, fst (getStatus w') = Ok st /\
        st_totalRuns st = totalRuns (statistics (self w')) /\
        successRate st =
          (if 0 <? totalRuns (statistics (self w'))
           then inject_Z (successfulConvergences (statistics (self w'))) /
                inject_Z (totalRuns (statistics (self w')))
           else 0)%Q
  | (Throw _, w') => statistics (self w') = statistics (self Samples.after_first_call)
  end.
Proof.
  split; [reflexivity | split; [reflexivity|]].
  apply solve_report_independent_of_earlier_calls; reflexivity.
Defined.

(** Claim C7 fails: the statistics written by a first call survive it and
    are read by the next one; after two calls on one solver [getStatus]
    reports two runs, where the second call alone reports one. *)
Lemma shared_statistics_counterexample :
  match fst (getStatus (snd (solveFixedPoint Samples.thirds [0; 1; 1; 0]
                               Samples.zero_rate_params
                               (snd (solveFixedPoint Samples.thirds [1; 0; 1; 1]
                                       Samples.zero_rate_params (mkWorld create 0)))))) with
  | Ok st => st_totalRuns st = 2
  | Throw _ => False
  end /\
  match fst (getStatus (snd (solveFixedPoint Samples.thirds [0; 1; 1; 0]
                               Samples.zero_rate_params (mkWorld create 0)))) with
  | Ok st => st_totalRuns st = 1
  | Throw _ => False
  end.
Proof. split; lazy; reflexivity. Qed.

(** ** Further properties of the solver *)

Lemma Qltb_false (x y : Q) : Qltb x y = false <-> (y <= x)%Q.
Proof.
  unfold Qltb; rewrite negb_false_iff, Qle_bool_iff; reflexivity.
Qed.

(** The adaptive step, position by position. *)
Lemma adaptive_loop_shape (random : nat -> Q) (df : Q) (cur prev : list Z) (w : World) :
  length cur = length prev ->
  exists out,
    adaptive_loop random df cur prev w =
      (Ok out, mkWorld (self w) (seed w + Z.to_nat (HammingCode.hammingDistance cur prev))) /\
    length out = length cur /\
    (forall i, (i < length cur)%nat -> nth i out 0 = nth i cur 0 \/ nth i out 0 = nth i prev 0).
Proof.
  revert prev w; induction cur as [|c cur IH]; intros prev w Hl.
  - destruct prev; [|discriminate Hl].
    exists []; split; [|split; [reflexivity | intros i Hi; simpl in Hi; lia]].
    destruct w; simpl; rewrite Nat.add_0_r; reflexivity.
  - destruct prev as [|q prev]; [discriminate Hl|]; injection Hl as Hl.
    pose proof (proj2 (proj1 (proj2 (HammingProofs.hammingDistance_props cur prev Hl))))
      as Hrange.
    pose proof (proj1 (proj1 (proj2 (HammingProofs.hammingDistance_props cur prev Hl))))
      as Hpos.
    rewrite HammingProofs.hammingDistance_cons; simpl adaptive_loop.
    destruct (c =? q) eqn:Ecq.
    + destruct (IH prev w Hl) as (out & Hrun & Hlen & Hnth).
      exists (c :: out); unfold bind; rewrite Hrun; simpl.
      split; [reflexivity|]. split; [lia|].
      intros [|i] Hi; simpl; [left; reflexivity | apply Hnth; lia].
    + destruct (IH prev (mkWorld (self w) (S (seed w))) Hl) as (out & Hrun & Hlen & Hnth).
      exists ((if Qltb (random (seed w)) (1 - df)%Q then c else q) :: out).
      unfold bind, mathRandom; cbn [self seed]; rewrite Hrun; unfold ret.
      split; [|split; [simpl; lia|]].
      { replace (seed w + Z.to_nat ((if false then 0 else 1) +
                                    HammingCode.hammingDistance cur prev))%nat
          with (S (seed w) + Z.to_nat (HammingCode.hammingDistance cur prev))%nat
          by (change (if false then 0 else 1) with 1; lia).
        reflexivity. }
      intros [|i] Hi; simpl in Hi |- *; [destruct (Qltb _ _); auto | apply Hnth; lia].
Qed.

Lemma adaptive_loop_const (random : nat -> Q) (df : Q) (b : bool) :
  (forall n, Qltb (random n) (1 - df)%Q = b) ->
  forall cur prev w, length cur = length prev ->
  fst (adaptive_loop random df cur prev w) = Ok (if b then cur else prev).
Proof.
  intros Hb cur; induction cur as [|c cur IH]; intros prev w Hl.
  - destruct prev; [destruct b; reflexivity | discriminate Hl].
  - destruct prev as [|q prev]; [discriminate Hl|]; injection Hl as Hl.
    simpl adaptive_loop; destruct (c =? q) eqn:Ecq; unfold bind; simpl.
    + apply Z.eqb_eq in Ecq; subst q.
      specialize (IH prev w Hl); destruct (adaptive_loop random df cur prev w) as [o w'].
      simpl in IH; subst o; destruct b; reflexivity.
    + rewrite Hb.
      specialize (IH prev (mkWorld (self w) (S (seed w))) Hl).
      destruct (adaptive_loop random df cur prev _) as [o w'].
      simpl in IH; subst o; destruct b; reflexivity.
Qed.

(** [applyAdaptiveStep] on two words of the same length returns a word of
    that length whose every bit is the current or the previous bit, keeps
    [this] as it is, and draws [Math.random()] once per differing
    position. *)
Theorem applyAdaptiveStep_positionwise (random : nat -> Q) (cur prev : list Z)
    (config : Config) (w : World) :
  length cur = length prev ->
  exists out,
    applyAdaptiveStep random cur prev config w =
      (Ok out, mkWorld (self w) (seed w + Z.to_nat (HammingCode.hammingDistance cur prev))) /\
    length out = length cur /\
    (forall i, (i < length cur)%nat -> nth i out 0 = nth i cur 0 \/ nth i out 0 = nth i prev 0).
Proof. apply adaptive_loop_shape. Qed.

Lemma applyAdaptiveStep_positionwise_witness :
  length [1; 0; 1; 1] = length [1; 1; 0; 1] /\
  exists out,
    applyAdaptiveStep Samples.thirds [1; 0; 1; 1] [1; 1; 0; 1] (defaultParams create)
      (mkWorld create 0) =
      (Ok out, mkWorld (self (mkWorld create 0))
                 (seed (mkWorld create 0) +
                  Z.to_nat (HammingCode.hammingDistance [1; 0; 1; 1] [1; 1; 0; 1]))) /\
    length out = length [1; 0; 1; 1] /\
    (forall i, (i < length [1; 0; 1; 1])%nat ->
       nth i out 0 = nth i [1; 0; 1; 1] 0 \/ nth i out 0 = nth i [1; 1; 0; 1] 0).
Proof. split; [reflexivity | apply applyAdaptiveStep_positionwise; reflexivity]. Defined.

(** With draws in [[0, 1)], a damping factor of 0 always keeps the current
    word and a damping factor of 1 always returns the previous word. *)
Theorem applyAdaptiveStep_damping_extremes (random : nat -> Q) (cur prev : list Z)
    (config : Config) (w : World) :
  length cur = length prev -> (forall n, 0 <= random n < 1)%Q ->
  ((dampingFactor config == 0)%Q -> fst (applyAdaptiveStep random cur prev config w) = Ok cur) /\
  ((dampingFactor config == 1)%Q -> fst (applyAdaptiveStep random cur prev config w) = Ok prev).
Proof.
  intros Hl Hr; unfold applyAdaptiveStep; split; intros Hdf.
  - apply (adaptive_loop_const random (dampingFactor config) true); [|exact Hl].
    intros n; apply Qltb_true; rewrite Hdf; apply (proj2 (Hr n)).
  - apply (adaptive_loop_const random (dampingFactor config) false); [|exact Hl].
    intros n; apply Qltb_false; rewrite Hdf; apply (proj1 (Hr n)).
Qed.

Lemma applyAdaptiveStep_damping_extremes_witness :
  length [1; 0; 1; 1] = length [0; 1; 1; 1] /\ (forall n, 0 <= Samples.thirds n < 1)%Q /\
  (dampingFactor (Samples.damped 0) == 0)%Q /\
  fst (applyAdaptiveStep Samples.thirds [1; 0; 1; 1] [0; 1; 1; 1] (Samples.damped 0)
         (mkWorld create 0)) = Ok [1; 0; 1; 1] /\
  (dampingFactor (Samples.damped 1) == 1)%Q /\
  fst (applyAdaptiveStep Samples.thirds [1; 0; 1; 1] [0; 1; 1; 1] (Samples.damped 1)
         (mkWorld create 0)) = Ok [0; 1; 1; 1].
Proof.
  assert (Hr : forall n, (0 <= Samples.thirds n < 1)%Q).
  { intros n; split; [apply Samples.thirds_range|].
    pose proof (Nat.mod_upper_bound n 3 ltac:(lia)) as Hk.
    unfold Samples.thirds; generalize dependent (n mod 3)%nat; intros k Hk.
    unfold Qlt; simpl; lia. }
  split; [reflexivity | split; [exact Hr|]].
  split; [reflexivity|]. split.
  - apply (applyAdaptiveStep_damping_extremes Samples.thirds [1; 0; 1; 1] [0; 1; 1; 1]
             (Samples.damped 0) (mkWorld create 0)); [reflexivity | exact Hr | reflexivity].
  - split; [reflexivity|].
    apply (applyAdaptiveStep_damping_extremes Samples.thirds [1; 0; 1; 1] [0; 1; 1; 1]
             (Samples.damped 1) (mkWorld create 0)); [reflexivity | exact Hr | reflexivity].
Defined.

Lemma calculateConvergenceError_hamming (c p : list Z) :
  calculateConvergenceError c p =
  (inject_Z (HammingCode.hammingDistance c p) / inject_Z (Z.of_nat (length c)))%Q.
Proof. reflexivity. Qed.

Lemma convergenceError_props (c p : list Z) :
  length c = length p -> c <> [] ->
  (0 <= calculateConvergenceError c p <= 1)%Q /\
  ((calculateConvergenceError c p == 0)%Q <-> c = p).
Proof.
  intros Hl Hne; rewrite calculateConvergenceError_hamming.
  destruct (HammingProofs.hammingDistance_props c p Hl) as (_ & Hrange & Hzero).
  destruct (length c) as [|k] eqn:Ek; [destruct c; [contradiction | discriminate Ek]|].
  simpl Z.of_nat in *.
  unfold Qdiv, Qle, Qeq; simpl.
  split; [split; lia|].
  rewrite <- Hzero; lia.
Qed.

(** For two words of the same non-zero length, [calculateConvergenceError]
    is their Hamming distance divided by the length: it lies in [[0, 1]] and
    is 0 exactly when the words are equal. *)
Theorem calculateConvergenceError_fraction (c p : list Z) :
  length c = length p -> c <> [] ->
  calculateConvergenceError c p =
    (inject_Z (HammingCode.hammingDistance c p) / inject_Z (Z.of_nat (length c)))%Q /\
  (0 <= calculateConvergenceError c p <= 1)%Q /\
  ((calculateConvergenceError c p == 0)%Q <-> c = p).
Proof.
  intros Hl Hne; split; [apply calculateConvergenceError_hamming|].
  apply convergenceError_props; assumption.
Qed.

Lemma calculateConvergenceError_fraction_witness :
  length [1; 0; 1; 1] = length [1; 1; 0; 1] /\ [1; 0; 1; 1] <> [] /\
  calculateConvergenceError [1; 0; 1; 1] [1; 1; 0; 1] =
    (inject_Z (HammingCode.hammingDistance [1; 0; 1; 1]%Z [1; 1; 0; 1]%Z) /
     inject_Z (Z.of_nat (length [1; 0; 1; 1]%Z)))%Q /\
  (0 <= calculateConvergenceError [1; 0; 1; 1]%Z [1; 1; 0; 1]%Z <= 1)%Q /\
  ((calculateConvergenceError [1; 0; 1; 1]%Z [1; 1; 0; 1]%Z == 0)%Q <->
   [1; 0; 1; 1] = [1; 1; 0; 1]).
Proof.
  assert (Hne : [1; 0; 1; 1] <> []) by discriminate.
  split; [reflexivity | split; [exact Hne|]].
  apply calculateConvergenceError_fraction; [reflexivity | exact Hne].
Defined.

Lemma rate_loop_nonneg (rest : list Q) (prev : Q) (sum : R) (n : nat) :
  (0 <= sum)%R -> (0 <= fst (rate_loop prev rest sum n))%R.
Proof.
  revert prev sum n; induction rest as [|e rest IH]; intros prev sum n Hs; simpl; [exact Hs|].
  destruct (Qltb 0 prev && Qltb 0 e); [|apply IH; exact Hs].
  destruct (Rlt_dec _ _); apply IH; [pose proof (Rabs_pos (ln (Q2R e / Q2R prev))); lra | exact Hs].
Qed.

(** [calculateConvergenceRate] is never negative. *)
Theorem calculateConvergenceRate_nonneg (history : list IterationRecord) :
  (0 <= calculateConvergenceRate history)%R.
Proof.
  unfold calculateConvergenceRate.
  destruct (Nat.ltb (length history) 3); [lra|].
  destruct (map convergenceError_r history) as [|e0 [|e1 rest]]; try lra.
  pose proof (rate_loop_nonneg rest e1 0 O (Rle_refl 0)) as Hs.
  destruct (rate_loop e1 rest 0%R O) as [sum valid]; simpl in Hs.
  destruct (Nat.ltb 0 valid) eqn:Ev; [|lra].
  apply Nat.ltb_lt, lt_0_INR in Ev.
  unfold Rdiv; apply Rmult_le_pos; [exact Hs | left; apply Rinv_0_lt_compat; exact Ev].
Qed.

Lemma analyze_fold_count (h : list IterationRecord) (a b : Z) :
  fold_left (fun acc step =>
               if errorsCorrected step then (fst acc + 1, snd acc + 1) else acc) h (a, b) =
  (a + Z.of_nat (length (filter errorsCorrected h)),
   b + Z.of_nat (length (filter errorsCorrected h))).
Proof.
  revert a b; induction h as [|step h IH]; intros a b; simpl; [f_equal; lia|].
  destruct (errorsCorrected step); rewrite IH; simpl; f_equal; lia.
Qed.

(** [analyzeErrorCorrection] counts the history records flagged
    [errorsCorrected] in both counters; [averageErrorsPerIteration] is
    [NaN] exactly on an empty history and is otherwise that count divided
    by the history length, in [[0, 1]]. *)
Theorem analyzeErrorCorrection_counts (h : list IterationRecord) :
  totalErrorsDetected (analyzeErrorCorrection h) = Z.of_nat (length (filter errorsCorrected h)) /\
  errorsCorrected_s (analyzeErrorCorrection h) = Z.of_nat (length (filter errorsCorrected h)) /\
  (averageErrorsPerIteration (analyzeErrorCorrection h) = None <-> h = []) /\
  (forall q, averageErrorsPerIteration (analyzeErrorCorrection h) = Some q ->
     q = (inject_Z (Z.of_nat (length (filter errorsCorrected h))) /
          inject_Z (Z.of_nat (length h)))%Q /\ (0 <= q <= 1)%Q).
Proof.
  unfold analyzeErrorCorrection; rewrite analyze_fold_count; simpl.
  split; [reflexivity | split; [reflexivity|]].
  pose proof (filter_length_le errorsCorrected h) as Hle.
  remember (length (filter errorsCorrected h)) as k eqn:Ek; clear Ek.
  destruct h as [|step h'].
  - simpl; split; [tauto | intros q Hq; discriminate Hq].
  - cbn [length Nat.eqb] in Hle |- *.
    split; [split; [intros Hn; discriminate Hn | intros Hn; discriminate Hn]|].
    intros q Hq; injection Hq as <-; split; [reflexivity|].
    pose proof (Zpos_P_of_succ_nat (length h')) as Hp.
    simpl Z.of_nat; unfold Qdiv, Qle; simpl; split; lia.
Qed.

(** A history is well formed when its records are numbered [0, 1, ...] in
    order and each convergence error lies in [[0, 1]]. *)
Definition hist_ok (h : list IterationRecord) : Prop :=
  map iteration h = map Z.of_nat (seq 0 (length h)) /\
  Forall (fun r => 0 <= convergenceError_r r <= 1)%Q h.

Lemma hist_ok_nil : hist_ok [].
Proof. split; [reflexivity | constructor]. Qed.

Lemma hist_ok_snoc (h : list IterationRecord) (r : IterationRecord) :
  hist_ok h -> iteration r = Z.of_nat (length h) ->
  (0 <= convergenceError_r r <= 1)%Q -> hist_ok (h ++ [r]).
Proof.
  intros [Hi He] Hr Her; split.
  - rewrite map_app, length_app, Nat.add_1_r, seq_S, map_app, Hi; simpl; rewrite Hr; reflexivity.
  - apply Forall_app; split; [exact He | constructor; [exact Her | constructor]].
Qed.

(** One evolution cycle keeps [this], and when it returns, its input and its
    output are 4-bit words. *)
Lemma evolution_shape (random : nat -> Q) (data : list Z) (config : Config) (w : World) :
  match applySingleEvolutionCycle random data config w with
  | (Ok ev, w1) => self w1 = self w /\ length data = 4%nat /\ length (finalData ev) = 4%nat
  | (Throw _, w1) => self w1 = self w
  end.
Proof.
  unfold applySingleEvolutionCycle, bind, liftOutcome, simulateTemporalTransmission.
  destruct (HammingCode.encode data) as [code|m] eqn:Enc; [|reflexivity].
  assert (Hv : HammingCode.validateDataBits data = true)
    by (unfold HammingCode.encode in Enc; destruct (HammingCode.validateDataBits data);
        [reflexivity | discriminate Enc]).
  unfold HammingCode.validateDataBits in Hv; apply andb_true_iff in Hv as [Hl _].
  destruct (HammingCode.injectErrors random code (errorRate config) (seed w)) as [tr s'].
  destruct (HammingCode.decode tr) as [dec|m] eqn:Dec; [|reflexivity].
  simpl; split; [reflexivity | split; [apply Nat.eqb_eq; exact Hl|]].
  unfold HammingCode.decode in Dec; destruct (HammingCode.validateCodeword tr);
    [injection Dec as <-; reflexivity | discriminate Dec].
Qed.

Section Loop.

Variable random : nat -> Q.

(** Loop invariant for the history: every pass appends one record numbered
    by [currentIteration]; a pass that converges stops with its record last
    and its error in [this.convergenceError]. *)
Lemma fixedPointLoop_history (fuel : nat) (config : Config) (data : list Z) (w : World) :
  currentIteration (self w) + Z.of_nat fuel = maxIterations config ->
  0 <= currentIteration (self w) ->
  length (convergenceHistory (self w)) = Z.to_nat (currentIteration (self w)) ->
  isConverged (self w) = false ->
  hist_ok (convergenceHistory (self w)) ->
  match fixedPointLoop random fuel config data w with
  | (o, w') =>
      hist_ok (convergenceHistory (self w')) /\
      match o with
      | Ok final =>
          isConverged (self w') = true ->
          0 <= currentIteration (self w') < maxIterations config /\
          length (convergenceHistory (self w')) = S (Z.to_nat (currentIteration (self w'))) /\
          exists h0 rec, convergenceHistory (self w') = h0 ++ [rec] /\
            state rec = final /\ iteration rec = currentIteration (self w') /\
            convergenceError (self w') = Finite (convergenceError_r rec) /\
            Qle_bool (convergenceError_r rec) (convergenceTolerance config) = true
      | Throw _ => True
      end
  end.
Proof.
  revert data w; induction fuel as [|fuel IH]; intros data w Hsum Hpos Hlen Hconv Hok.
  - simpl; split; [exact Hok | intros H; congruence].
  - cbn [fixedPointLoop]; unfold bind at 1, getsSelf at 1; cbv beta iota.
    replace (currentIteration (self w) <? maxIterations config) with true
      by (symmetry; apply Z.ltb_lt; lia).
    unfold bind at 1.
    pose proof (evolution_shape random data config w) as Hev.
    destruct (applySingleEvolutionCycle random data config w) as [[ev | e] w1];
      [|rewrite Hev; split; [exact Hok | exact I]].
    destruct Hev as (Hk & Hd & Hf).
    assert (Herr : (0 <= calculateConvergenceError (finalData ev) data <= 1)%Q).
    { apply convergenceError_props; [congruence|].
      intros E; rewrite E in Hf; discriminate Hf. }
    unfold bind at 1, modifySelf at 1; cbv beta iota.
    unfold bind at 1, recordIterationStep at 1, modifySelf at 1; cbv beta iota.
    set (rec := {| iteration := currentIteration (self w1); state := finalData ev;
                   convergenceError_r := calculateConvergenceError (finalData ev) data;
                   errorsCorrected := errorsCorrected_e ev;
                   errorPosition_r := errorPosition_e ev;
                   encodedState := encodedState_e ev;
                   transmittedState := transmittedState_e ev |}).
    assert (Hok' : hist_ok (convergenceHistory (self w1) ++ [rec])).
    { rewrite Hk; apply hist_ok_snoc; [exact Hok | | exact Herr].
      simpl; rewrite Hk, Hlen; lia. }
    destruct (Qle_bool _ _) eqn:Etol.
    + simpl; split; [exact Hok' | intros _].
      split; [rewrite Hk; lia|]. split; [rewrite length_app, Hk, Hlen; simpl; lia|].
      exists (convergenceHistory (self w1)), rec.
      split; [reflexivity|]. split; [reflexivity|]. split; [reflexivity|].
      split; [reflexivity | exact Etol].
    + unfold bind at 1.
      match goal with
      | |- context [ (if ?b then ?a1 else ?a2) ?ww ] =>
          assert (Hn : keeps_self (if b then a1 else a2))
            by (destruct b; unfold applyAdaptiveStep; auto with keeps);
          specialize (Hn ww);
          destruct ((if b then a1 else a2) ww) as [[next | e] w2]
      end.
      2: { simpl in Hn; rewrite Hn; simpl; split; [exact Hok' | exact I]. }
      simpl in Hn.
      unfold bind at 1, modifySelf at 1; cbv beta iota.
      apply IH; simpl; rewrite Hn; simpl.
      * rewrite Hk; lia.
      * rewrite Hk; lia.
      * rewrite length_app, Hk, Hlen; simpl; lia.
      * rewrite Hk; exact Hconv.
      * exact Hok'.
Qed.

End Loop.

Lemma solve_history_props (random : nat -> Q) (d : list Z) (p : Params) (w : World) :
  match fst (solveFixedPoint random d p w) with
  | Ok r =>
      hist_ok (convergenceHistory_r r) /\
      (converged r = true ->
       iterations r = Z.of_nat (length (convergenceHistory_r r)) /\
       1 <= iterations r <= maxIterations (parameters r) /\
       exists h0 rec, convergenceHistory_r r = h0 ++ [rec] /\ state rec = finalState r /\
         finalError r = Finite (convergenceError_r rec) /\
         (convergenceError_r rec <= convergenceTolerance (parameters r))%Q)
  | Throw _ => True
  end.
Proof.
  rewrite solveFixedPoint_unfold; cbv zeta.
  set (config := mergeConfig (defaultParams (self w)) p).
  destruct (Z_lt_le_dec (maxIterations config) 0) as [Hneg | Hnn].
  - replace (Z.to_nat (maxIterations config)) with O by lia; simpl.
    split; [apply hist_ok_nil | intros H; discriminate H].
  - pose proof (fixedPointLoop_history random (Z.to_nat (maxIterations config)) config d
                  (snd (resetIterationState w))) as H.
    simpl in H; rewrite Z2Nat.id in H by exact Hnn.
    specialize (H eq_refl (Z.le_refl 0) eq_refl eq_refl hist_ok_nil).
    destruct (fixedPointLoop _ _ _ _ _) as [[final | e] w2]; simpl; [|exact I].
    destruct H as [Hok Hc]; split; [exact Hok|]; intros Hconv.
    destruct (Hc Hconv) as (Hci & Hlen & h0 & rec & Hh & Hst & Hit & Herr & Htol).
    split; [rewrite Hlen; lia|]. split; [lia|].
    exists h0, rec; split; [exact Hh|]. split; [exact Hst|]. split; [exact Herr|].
    apply Qle_bool_iff; exact Htol.
Qed.

(** A report with [converged: true] counts one iteration per history
    record, at most [maxIterations]; its [finalError] is the error of the
    last record, which is within the tolerance, and its [finalState] is the
    state of that record. *)
Theorem solve_converged_report (random : nat -> Q) (d : list Z) (p : Params) (w : World) :
  match fst (solveFixedPoint random d p w) with
  | Ok r =>
      converged r = true ->
      iterations r = Z.of_nat (length (convergenceHistory_r r)) /\
      1 <= iterations r <= maxIterations (parameters r) /\
      exists h0 rec, convergenceHistory_r r = h0 ++ [rec] /\ state rec = finalState r /\
        finalError r = Finite (convergenceError_r rec) /\
        (convergenceError_r rec <= convergenceTolerance (parameters r))%Q
  | Throw _ => True
  end.
Proof.
  pose proof (solve_history_props random d p w) as H.
  destruct (fst (solveFixedPoint random d p w)); [apply H | exact I].
Qed.

(** The history in a report numbers its records [0, 1, 2, ...] in order,
    and each recorded convergence error lies in [[0, 1]]. *)
Theorem solve_history_numbered (random : nat -> Q) (d : list Z) (p : Params) (w : World) :
  match fst (solveFixedPoint random d p w) with
  | Ok r =>
      map iteration (convergenceHistory_r r) =
        map Z.of_nat (seq 0 (length (convergenceHistory_r r))) /\
      Forall (fun rec => 0 <= convergenceError_r rec <= 1)%Q (convergenceHistory_r r)
  | Throw _ => True
  end.
Proof.
  pose proof (solve_history_props random d p w) as H.
  destruct (fst (solveFixedPoint random d p w)); [apply H | exact I].
Qed.

(** With [maxIterations > 0], an initial word that is not four 0/1 bits
    makes the call throw the encoder's error in the first pass: no draw is
    consumed, the statistics are untouched, and [this] is left as the reset
    made it. *)
Theorem solve_invalid_initial_throws (random : nat -> Q) (d : list Z) (p : Params) (w : World) :
  HammingCode.validateDataBits d = false ->
  0 < maxIterations (mergeConfig (defaultParams (self w)) p) ->
  solveFixedPoint random d p w =
    (Throw "Input must be array of exactly 4 bits (0 or 1)"%string,
     mkWorld (set_convergenceError Infinity
                (set_isConverged false (set_currentIteration 0 (set_history [] (self w)))))
             (seed w)).
Proof.
  intros Hd Hm; rewrite solveFixedPoint_unfold; cbv zeta.
  set (config := mergeConfig (defaultParams (self w)) p) in *.
  destruct (Z.to_nat (maxIterations config)) as [|fuel] eqn:Efuel; [lia|].
  cbn [fixedPointLoop]; unfold bind at 1, getsSelf at 1; cbv beta iota.
  replace (currentIteration (self (snd (resetIterationState w))) <? maxIterations config)
    with true by (symmetry; apply Z.ltb_lt; exact Hm).
  unfold applySingleEvolutionCycle, bind, liftOutcome, HammingCode.encode; rewrite Hd.
  reflexivity.
Qed.

Lemma solve_invalid_initial_throws_witness :
  HammingCode.validateDataBits [1; 2; 0; 1] = false /\
  0 < maxIterations (mergeConfig (defaultParams (self (mkWorld create 3))) noParams) /\
  solveFixedPoint Samples.thirds [1; 2; 0; 1] noParams (mkWorld create 3) =
    (Throw "Input must be array of exactly 4 bits (0 or 1)"%string,
     mkWorld (set_convergenceError Infinity
                (set_isConverged false
                   (set_currentIteration 0 (set_history [] (self (mkWorld create 3))))))
             (seed (mkWorld create 3))).
Proof.
  split; [reflexivity | split; [reflexivity|]].
  apply solve_invalid_initial_throws; reflexivity.
Defined.

(** With [maxIterations <= 0] the loop body never runs: the call returns the
    initial word unchanged and unchecked, unconverged, with [iterations] 1,
    [finalError] Infinity and an empty history, and consumes no draw. *)
Theorem solve_nonpositive_maxIterations (random : nat -> Q) (d : list Z) (p : Params)
    (w : World) :
  maxIterations (mergeConfig (defaultParams (self w)) p) <= 0 ->
  exists r, fst (solveFixedPoint random d p w) = Ok r /\
    finalState r = d /\ converged r = false /\ iterations r = 1 /\
    finalError r = Infinity /\ convergenceHistory_r r = [] /\
    seed (snd (solveFixedPoint random d p w)) = seed w.
Proof.
  intros Hm; rewrite solveFixedPoint_unfold; cbv zeta.
  replace (Z.to_nat (maxIterations (mergeConfig (defaultParams (self w)) p))) with O by lia.
  simpl; eexists; split; [reflexivity|]; repeat split.
Qed.

Lemma solve_nonpositive_maxIterations_witness :
  maxIterations (mergeConfig (defaultParams (self (mkWorld create 0)))
                   (mkParams (Some 0) None None None None)) <= 0 /\
  exists r, fst (solveFixedPoint Samples.thirds [7; 7] (mkParams (Some 0) None None None None)
                   (mkWorld create 0)) = Ok r /\
    finalState r = [7; 7] /\ converged r = false /\ iterations r = 1 /\
    finalError r = Infinity /\ convergenceHistory_r r = [] /\
    seed (snd (solveFixedPoint Samples.thirds [7; 7] (mkParams (Some 0) None None None None)
                 (mkWorld create 0))) = seed (mkWorld create 0).
Proof.
  split; [simpl; lia|].
  apply solve_nonpositive_maxIterations; simpl; lia.
Defined.

(** A call that returns adds one run to the statistics, one success when
    the report says [converged], and moves [averageIterations] a tenth of
    the way to the report's [iterations]; a call that throws leaves the
    statistics as they were. *)
Theorem solve_updates_statistics (random : nat -> Q) (d : list Z) (p : Params) (w : World) :
  match solveFixedPoint random d p w with
  | (Ok r, w') =>
      statistics (self w') =
      {| totalRuns := totalRuns (statistics (self w)) + 1;
         successfulConvergences :=
           if converged r then successfulConvergences (statistics (self w)) + 1
           else successfulConvergences (statistics (self w));
         averageIterations :=
           ((1 # 10) * inject_Z (iterations r)
            + (1 - (1 # 10)) * averageIterations (statistics (self w)))%Q;
         convergenceRates := convergenceRates (statistics (self w));
         errorCorrectionEffectiveness := errorCorrectionEffectiveness (statistics (self w)) |}
  | (Throw _, w') => statistics (self w') = statistics (self w)
  end.
Proof. apply solve_statistics. Qed.

Lemma Qfrac_unit (a b : Z) : 0 <= a <= b -> 0 < b -> (0 <= inject_Z a / inject_Z b <= 1)%Q.
Proof.
  intros Hab Hb; destruct b as [|q|q]; try lia.
  unfold Qdiv, Qle; simpl; split; lia.
Qed.

(** [0 <= successfulConvergences <= totalRuns] holds for a fresh solver and
    is kept by every call, returning or throwing; so [getStatus] reports a
    success rate in [[0, 1]]. *)
Theorem solve_keeps_success_rate (random : nat -> Q) (d : list Z) (p : Params) (w : World) :
  0 <= successfulConvergences (statistics (self w)) <= totalRuns (statistics (self w)) ->
  0 <= successfulConvergences (statistics (self (snd (solveFixedPoint random d p w))))
    <= totalRuns (statistics (self (snd (solveFixedPoint random d p w)))) /\
  match fst (getStatus (snd (solveFixedPoint random d p w))) with
  | Ok st => (0 <= successRate st <= 1)%Q
  | Throw _ => False
  end.
Proof.
  intros Hinv.
  assert (Hs : 0 <= successfulConvergences (statistics (self (snd (solveFixedPoint random d p w))))
                 <= totalRuns (statistics (self (snd (solveFixedPoint random d p w))))).
  { pose proof (solve_statistics random d p w) as H.
    destruct (solveFixedPoint random d p w) as [[r | e] w']; simpl; rewrite H; [|exact Hinv].
    simpl; destruct (converged r); lia. }
  split; [exact Hs|].
  unfold getStatus, getsSelf; simpl.
  destruct (0 <? totalRuns _) eqn:Et; [|split; discriminate].
  apply Z.ltb_lt in Et; apply Qfrac_unit; lia.
Qed.

Lemma solve_keeps_success_rate_witness :
  0 <= successfulConvergences (statistics (self (mkWorld create 0)))
    <= totalRuns (statistics (self (mkWorld create 0))) /\
  0 <= successfulConvergences (statistics (self (snd (solveFixedPoint Samples.thirds
          [0; 1; 1; 0] Samples.zero_rate_params (mkWorld create 0)))))
    <= totalRuns (statistics (self (snd (solveFixedPoint Samples.thirds
          [0; 1; 1; 0] Samples.zero_rate_params (mkWorld create 0))))) /\
  match fst (getStatus (snd (solveFixedPoint Samples.thirds [0; 1; 1; 0]
                               Samples.zero_rate_params (mkWorld create 0)))) with
  | Ok st => (0 <= successRate st <= 1)%Q
  | Throw _ => False
  end.
Proof.
  split; [simpl; lia|].
  apply solve_keeps_success_rate; simpl; lia.
Defined.

(** After a call that returns, [getStatus] agrees with the report: the
    current iteration is [iterations - 1], the convergence flag and error
    are the report's, the history length is the report's, and the run
    count is one more than before the call. *)
Theorem status_after_solve (random : nat -> Q) (d : list Z) (p : Params) (w : World) :
  match solveFixedPoint random d p w with
  | (Ok r, w') =>
      exists st, fst (getStatus w') = Ok st /\
        st_currentIteration st = iterations r - 1 /\
        st_isConverged st = converged r /\
        st_convergenceError st = finalError r /\
        historyLength st = Z.of_nat (length (convergenceHistory_r r)) /\
        st_totalRuns st = totalRuns (statistics (self w)) + 1
  | (Throw _, _) => True
  end.
Proof.
  pose proof (solve_counts_run random d p w) as Hc.
  rewrite solveFixedPoint_unfold in Hc |- *; cbv zeta in Hc |- *.
  destruct (fixedPointLoop _ _ _ _ (snd (resetIterationState w))) as [[final | e] w'];
    [|exact I].
  simpl in Hc |- *; eexists; split; [reflexivity|].
  simpl; split; [lia|]. split; [reflexivity|]. split; [reflexivity|].
  split; [reflexivity | exact Hc].
Qed.

End SolverProofs.
